(** * rag-studies: relevance ranking, response extraction and the RAG pipeline

A shallow embedding of
  - apps/interactive-chat/search_engine.py   (SimpleSearchEngine)
  - src/capacities/code_review/reviewer.py   (CodeReviewCapacity parsers)
  - src/core/engine.py                       (RAGEngine)
followed by the properties of these functions.

Python [str] values are lists of Unicode code points, Python [int]s
are [Z], dictionaries used as maps are [gmap]s. *)

From Stdlib Require Import ZArith NArith List Bool Ascii String QArith Lia Sorted Permutation.
From stdpp Require Import gmap strings list pretty.

Local Open Scope Z_scope.

(** ** Python strings *)

Abbreviation pystr := (list N) (only parsing).

Module PyStr.

(** Decoding of the UTF-8 bytes of a source literal into code points. *)
Fixpoint utf8_decode (bs : list N) : pystr :=
  match bs with
  | [] => []
  | b0 :: r0 =>
      if (b0 <? 128)%N then b0 :: utf8_decode r0
      else if (b0 <? 224)%N then
        match r0 with
        | b1 :: r1 => ((b0 - 192) * 64 + (b1 - 128))%N :: utf8_decode r1
        | _ => []
        end
      else if (b0 <? 240)%N then
        match r0 with
        | b1 :: b2 :: r2 =>
            ((b0 - 224) * 4096 + (b1 - 128) * 64 + (b2 - 128))%N
              :: utf8_decode r2
        | _ => []
        end
      else
        match r0 with
        | b1 :: b2 :: b3 :: r3 =>
            ((b0 - 240) * 262144 + (b1 - 128) * 4096
             + (b2 - 128) * 64 + (b3 - 128))%N :: utf8_decode r3
        | _ => []
        end
  end.

(** A literal of the Python source, as the [str] it denotes. *)
Definition py (s : string) : pystr :=
  utf8_decode (map N_of_ascii (list_ascii_of_string s)).

Definition len (s : pystr) : Z := Z.of_nat (length s).

Definition code_eqb (a b : N) : bool := (a =? b)%N.

Fixpoint str_eqb (a b : pystr) : bool :=
  match a, b with
  | [], [] => true
  | x :: a', y :: b' => code_eqb x y && str_eqb a' b'
  | _, _ => false
  end.

(** [s.startswith(p)] *)
Fixpoint startswith (p s : pystr) : bool :=
  match p, s with
  | [], _ => true
  | x :: p', y :: s' => code_eqb x y && startswith p' s'
  | _ :: _, [] => false
  end.

(** [sub in s] *)
Fixpoint contains (sub s : pystr) : bool :=
  startswith sub s ||
  match s with
  | [] => false
  | _ :: s' => contains sub s'
  end.

(** [s.count(sub)] for a non-empty [sub]: occurrences are counted left to
    right without overlap; [skip] is the number of characters still
    covered by the occurrence found last. *)
Fixpoint count_scan (sub s : pystr) (skip : nat) : Z :=
  match s with
  | [] => 0
  | _ :: s' =>
      match skip with
      | S k => count_scan sub s' k
      | O =>
          if startswith sub s
          then 1 + count_scan sub s' (length sub - 1)
          else count_scan sub s' 0
      end
  end.

(** [s.count(sub)]; the empty string occurs [len(s) + 1] times. *)
Definition count (s sub : pystr) : Z :=
  match sub with
  | [] => len s + 1
  | _ :: _ => count_scan sub s 0
  end.

(** [str.isspace] of one character: the code points with the Unicode
    White_Space property or bidirectional type WS, B or S. *)
Definition is_space (c : N) : bool :=
  ((9 <=? c) && (c <=? 13) || (28 <=? c) && (c <=? 32)
   || (c =? 133) || (c =? 160) || (c =? 5760)
   || (8192 <=? c) && (c <=? 8202)
   || (c =? 8232) || (c =? 8233) || (c =? 8239) || (c =? 8287)
   || (c =? 12288))%N.

Fixpoint lstrip (s : pystr) : pystr :=
  match s with
  | [] => []
  | c :: s' => if is_space c then lstrip s' else s
  end.

Definition rstrip (s : pystr) : pystr := rev (lstrip (rev s)).

(** [s.strip()] *)
Definition strip (s : pystr) : pystr := rstrip (lstrip s).

(** [s.split()]: the maximal runs of non-whitespace characters; [cur]
    holds the run being read, last character first. *)
Fixpoint split_ws (cur s : pystr) : list pystr :=
  match s with
  | [] => match cur with [] => [] | _ :: _ => [rev cur] end
  | c :: s' =>
      if is_space c
      then match cur with
           | [] => split_ws [] s'
           | _ :: _ => rev cur :: split_ws [] s'
           end
      else split_ws (c :: cur) s'
  end.

Definition split (s : pystr) : list pystr := split_ws [] s.

(** [s.split(sep)] for a one-character separator. *)
Fixpoint split_sep (sep : N) (cur s : pystr) : list pystr :=
  match s with
  | [] => [rev cur]
  | c :: s' =>
      if code_eqb c sep
      then rev cur :: split_sep sep [] s'
      else split_sep sep (c :: cur) s'
  end.

Definition split_on (sep : N) (s : pystr) : list pystr :=
  split_sep sep [] s.

(** [sep.join(parts)] *)
Fixpoint join (sep : pystr) (parts : list pystr) : pystr :=
  match parts with
  | [] => []
  | [p] => p
  | p :: rest => p ++ sep ++ join sep rest
  end.

(** [str(i)] of an integer. *)
Definition str_of_int (i : Z) : pystr := py (pretty i).

(** The slice [l[:stop]]: a negative [stop] counts from the end. *)
Definition slice_to {A} (l : list A) (stop : Z) : list A :=
  let n := Z.of_nat (length l) in
  let stop' := if stop <? 0 then Z.max (n + stop) 0 else Z.min stop n in
  firstn (Z.to_nat stop') l.

(** [enumerate(l, start)] *)
Fixpoint enumerate {A} (l : list A) (start : Z) : list (Z * A) :=
  match l with
  | [] => []
  | x :: l' => (start, x) :: enumerate l' (start + 1)
  end.

Definition NL : N := 10%N.

End PyStr.

(** The part of the Unicode character database the code relies on through
    [str.lower], [re.IGNORECASE], [\w] and [\d]. *)
Class UnicodeDB := {
  (** [s.lower()] *)
  str_lower : pystr -> pystr;
  (** comparison of a pattern character with a subject character under
      [re.IGNORECASE] *)
  ci_eq : N -> N -> bool;
  (** [c.isalnum()], the alphanumeric part of [\w] *)
  is_alnum : N -> bool;
  (** the value of a decimal digit ([\d], and what [int] reads) *)
  digit_value : N -> option Z
}.

(** ** apps/interactive-chat/search_engine.py *)

Module SearchEngine.
Import PyStr.

(** Values stored in a metadata dictionary. *)
Inductive pyval :=
| PStr (s : pystr)
| PInt (i : Z)
| PFloat (q : Q).

(** langchain's [Document]: the text and its metadata dictionary. The
    ['source'] entry, a [str] whenever a loader sets it, is kept apart
    from the other entries (['file_size'], ['file_type'], ...). *)
Record Document := mkDocument {
  page_content : pystr;
  source : option pystr;
  other_metadata : gmap string pyval
}.

(** [doc.metadata.get('source', dflt)] *)
Definition metadata_get_source (doc : Document) (dflt : pystr) : pystr :=
  match source doc with
  | Some s => s
  | None => dflt
  end.

(** [self.keyword_mapping], in insertion order. *)
Definition keyword_mapping : list (pystr * list pystr) :=
  [ (py "loader", [py "loader"; py "load"; py "document"; py "python"; py "carregar"]);
    (py "llm", [py "llm"; py "model"; py "gemini"; py "ollama"; py "pergunta"; py "resposta"; py "ask"]);
    (py "vector", [py "vector"; py "store"; py "chroma"; py "embedding"; py "retriever"]);
    (py "engine", [py "engine"; py "rag"; py "pipeline"; py "setup"]);
    (py "base", [py "base"; py "abstract"; py "interface"; py "herdar"]);
    (py "config", [py "config"; py "configuration"; py "yaml"; py "settings"]);
    (py "factory", [py "factory"; py "get_"; py "create"; py "build"]) ].

Definition important_patterns : list pystr :=
  [py "class "; py "def "; py "import "; py "from "].

Section Scoring.
Context {U : UnicodeDB}.

(** [_calculate_relevance_score(question_lower, doc)] *)
Definition _calculate_relevance_score
    (question_lower : pystr) (doc : Document) : Z :=
  let score := 0 in
  let content_lower := str_lower (page_content doc) in
  let file_path := str_lower (metadata_get_source doc (py "")) in
  let score :=
    fold_left
      (fun score word =>
         if len word >? 2
         then let word_count := count content_lower word in
              score + word_count * 2
         else score)
      (split question_lower) score in
  let score :=
    fold_left
      (fun score '(component, keywords) =>
         if existsb (fun kw => contains kw question_lower) keywords
         then if contains component file_path
              then score + 15
              else score
         else score)
      keyword_mapping score in
  let score := score + len content_lower / 1000 in
  let score :=
    fold_left
      (fun score pattern => score + count content_lower pattern)
      important_patterns score in
  score.

(** [_get_preview(content, max_chars)] *)
Definition _get_preview_n (content : pystr) (max_chars : Z) : pystr :=
  if len content <=? max_chars
  then content
  else slice_to content max_chars ++ py "...".

(** [_get_preview(content)] with the default [max_chars=150]. *)
Definition _get_preview (content : pystr) : pystr :=
  _get_preview_n content 150.

(** An entry of [doc_scores]: [(doc, score, file_path)]. *)
Definition scored : Type := Document * Z * pystr.

Definition scored_score (x : scored) : Z := snd (fst x).
Definition scored_doc (x : scored) : Document := fst (fst x).
Definition scored_path (x : scored) : pystr := snd x.

(** [list.sort(key=..., reverse=True)]. Python's sort is stable, also
    with [reverse=True]: elements with equal keys keep their order.
    Here: insertion of [x], which precedes every element of [l] in the
    original order, before the first element whose key is not larger. *)
Fixpoint insert_desc {A} (key : A -> Z) (x : A) (l : list A) : list A :=
  match l with
  | [] => [x]
  | y :: l' =>
      if key x <? key y
      then y :: insert_desc key x l'
      else x :: l
  end.

Fixpoint sort_desc {A} (key : A -> Z) (l : list A) : list A :=
  match l with
  | [] => []
  | x :: l' => insert_desc key x (sort_desc key l')
  end.

(** The list [doc_scores] of [find_relevant_context] before sorting. *)
Definition score_documents
    (question_lower : pystr) (documents : list Document) : list scored :=
  map (fun doc =>
         let score := _calculate_relevance_score question_lower doc in
         let file_path := metadata_get_source doc (py "N/A") in
         (doc, score, file_path))
      documents.

(** [doc_scores] after [doc_scores.sort(key=lambda x: x[1], reverse=True)]. *)
Definition doc_scores (question : pystr) (documents : list Document)
  : list scored :=
  sort_desc scored_score (score_documents (str_lower question) documents).

(** An element of [sources]. *)
Record SourceDescriptor := mkSource {
  src_index : Z;
  src_file : pystr;
  src_score : Z;
  src_lines : Z;
  src_preview : pystr
}.

(** [f"[ARQUIVO {i}: {file_path}]\n{doc.page_content}"] *)
Definition context_part (i : Z) (file_path : pystr) (doc : Document)
  : pystr :=
  py "[ARQUIVO " ++ str_of_int i ++ py ": " ++ file_path ++ py "]"
    ++ [NL] ++ page_content doc.

Definition source_of (i : Z) (x : scored) : SourceDescriptor :=
  {| src_index := i;
     src_file := scored_path x;
     src_score := scored_score x;
     src_lines := Z.of_nat (length (split_on NL (page_content (scored_doc x))));
     src_preview := _get_preview (page_content (scored_doc x)) |}.

(** The body of the loop over [enumerate(top_docs, 1)]: both lists
    grow together, for an entry with [score > 0] only. *)
Definition collect_step
  : list pystr * list SourceDescriptor -> Z * scored
    -> list pystr * list SourceDescriptor :=
  fun '(context_parts, sources) '(i, x) =>
    if scored_score x >? 0
    then (context_parts ++ [context_part i (scored_path x) (scored_doc x)],
          sources ++ [source_of i x])
    else (context_parts, sources).

(** The loop, from empty [context_parts] and [sources]. *)
Definition collect (top_docs : list scored)
  : list pystr * list SourceDescriptor :=
  fold_left collect_step (enumerate top_docs 1) ([], []).

(** [find_relevant_context(question, max_docs)] *)
Definition find_relevant_context
    (documents : list Document) (question : pystr) (max_docs : Z)
  : pystr * list SourceDescriptor :=
  match documents with
  | [] => (py "", [])
  | _ :: _ =>
      let top_docs := slice_to (doc_scores question documents) max_docs in
      let '(context_parts, sources) := collect top_docs in
      let context := join [NL; NL] context_parts in
      (context, sources)
  end.

End Scoring.

End SearchEngine.

(** ** Python's [re] module, as far as the reviewer uses it *)

Module Regex.
Import PyStr.

(** A member of a character set [[...]]. *)
Inductive cset_item :=
| CChar (c : N)
| CRange (lo hi : N)
| CWord
| CSpace
| CDigit.

Inductive regex :=
| Empty
| Lit (c : N)
| Any
| CSet (negated : bool) (items : list cset_item)
| Seq (r1 r2 : regex)
| Alt (r1 r2 : regex)
| Star (greedy : bool) (r : regex)
| Plus (greedy : bool) (r : regex)
| Group (n : nat) (r : regex)
| Bol
| Eol.

(** [r?] *)
Definition Opt (r : regex) : regex := Alt r Empty.

Fixpoint seqs (rs : list regex) : regex :=
  match rs with
  | [] => Empty
  | [r] => r
  | r :: rs' => Seq r (seqs rs')
  end.

(** The pattern of a literal text. *)
Definition lit (s : pystr) : regex := seqs (map Lit s).

Record flags := mkFlags { IGNORECASE : bool; DOTALL : bool }.

Definition no_flags : flags := {| IGNORECASE := false; DOTALL := false |}.

(** The groups that took part in a match, the latest first. *)
Definition captures : Type := list (nat * pystr).

Fixpoint lookup_group (n : nat) (c : captures) : option pystr :=
  match c with
  | [] => None
  | (i, s) :: c' => if Nat.eqb i n then Some s else lookup_group n c'
  end.

(** A match in progress: the position, the text from there on and the
    groups closed so far. The continuation is the rest of the pattern;
    a [None] from it makes the matcher try its next alternative. *)
Definition result : Type := nat * captures.
Definition cont : Type := nat -> pystr -> captures -> option result.
Definition matcher : Type := nat -> pystr -> captures -> cont -> option result.

Section Matching.
Context {U : UnicodeDB}.
Variable fl : flags.

Definition item_matches (it : cset_item) (c : N) : bool :=
  match it with
  | CChar x => code_eqb x c
  | CRange lo hi => ((lo <=? c) && (c <=? hi))%N
  | CWord => is_alnum c || code_eqb c 95%N
  | CSpace => is_space c
  | CDigit => match digit_value c with Some _ => true | None => false end
  end.

Definition lit_matches (p c : N) : bool :=
  if IGNORECASE fl then ci_eq p c else code_eqb p c.

Definition any_matches (c : N) : bool :=
  if DOTALL fl then true else negb (code_eqb c NL).

Definition step_char (ok : N -> bool) : matcher :=
  fun pos s c k =>
    match s with
    | x :: s' => if ok x then k (S pos) s' c else None
    | [] => None
    end.

(** Repetition of [mr]: at most [n] further rounds, each of which has
    to consume text. The greedy form prefers one more round, the lazy
    form prefers to go on with the rest of the pattern. *)
Fixpoint repeat (mr : matcher) (greedy : bool) (n : nat) : matcher :=
  fun pos s c k =>
    match n with
    | O => k pos s c
    | S n' =>
        let round :=
          fun _ : unit =>
            mr pos s c
               (fun pos' s' c' =>
                  if (length s' <? length s)%nat
                  then repeat mr greedy n' pos' s' c' k
                  else None) in
        if greedy
        then match round tt with
             | Some x => Some x
             | None => k pos s c
             end
        else match k pos s c with
             | Some x => Some x
             | None => round tt
             end
    end.

Fixpoint run (r : regex) : matcher :=
  match r with
  | Empty => fun pos s c k => k pos s c
  | Lit p => step_char (lit_matches p)
  | Any => step_char any_matches
  | CSet negated items =>
      step_char (fun x => xorb negated (existsb (fun it => item_matches it x) items))
  | Seq r1 r2 =>
      fun pos s c k => run r1 pos s c (fun pos' s' c' => run r2 pos' s' c' k)
  | Alt r1 r2 =>
      fun pos s c k =>
        match run r1 pos s c k with
        | Some x => Some x
        | None => run r2 pos s c k
        end
  | Star greedy r' =>
      fun pos s c k => repeat (run r') greedy (length s) pos s c k
  | Plus greedy r' =>
      fun pos s c k =>
        run r' pos s c
            (fun pos' s' c' => repeat (run r') greedy (length s') pos' s' c' k)
  | Group n r' =>
      fun pos s c k =>
        run r' pos s c
            (fun pos' s' c' => k pos' s' ((n, firstn (pos' - pos) s) :: c'))
  | Bol => fun pos s c k => match pos with O => k pos s c | S _ => None end
  | Eol =>
      fun pos s c k =>
        match s with
        | [] => k pos s c
        | [x] => if code_eqb x NL then k pos s c else None
        | _ => None
        end
  end.

(** A match object. *)
Record match_obj := mkMatch {
  m_start : nat;
  m_end : nat;
  m_groups : captures
}.

(** [match.group(n)]; [None] for a group that took no part. *)
Definition group (mo : match_obj) (n : nat) : option pystr :=
  lookup_group n (m_groups mo).

(** A match that starts exactly at [pos], where [s] is the text from
    [pos] on. *)
Definition match_at (r : regex) (pos : nat) (s : pystr) : option match_obj :=
  match run r pos s [] (fun pos' _ c => Some (pos', c)) with
  | Some (e, c) => Some {| m_start := pos; m_end := e; m_groups := c |}
  | None => None
  end.

Fixpoint search_from (r : regex) (pos : nat) (s : pystr) : option match_obj :=
  match match_at r pos s with
  | Some mo => Some mo
  | None =>
      match s with
      | [] => None
      | _ :: s' => search_from r (S pos) s'
      end
  end.

(** [re.search(r, text, flags)]: the leftmost match. *)
Definition search (r : regex) (text : pystr) : option match_obj :=
  search_from r 0 text.

(** [re.finditer]: the matches from left to right, without overlap;
    [skip] counts the characters still covered by the last match.
    (The patterns of this program match no empty text.) *)
Fixpoint finditer_scan (r : regex) (pos : nat) (s : pystr) (skip : nat)
  : list match_obj :=
  let here := match skip with O => match_at r pos s | S _ => None end in
  match here with
  | Some mo =>
      mo :: match s with
            | [] => []
            | _ :: s' => finditer_scan r (S pos) s' (m_end mo - pos - 1)
            end
  | None =>
      match s with
      | [] => []
      | _ :: s' => finditer_scan r (S pos) s' (pred skip)
      end
  end.

Definition finditer (r : regex) (text : pystr) : list match_obj :=
  finditer_scan r 0 text 0.

(** [re.sub(r, repl, text)] for a replacement without group
    references. *)
Fixpoint sub_scan (r : regex) (repl : pystr) (pos : nat) (s : pystr)
    (skip : nat) : pystr :=
  match skip with
  | S k =>
      match s with
      | [] => []
      | _ :: s' => sub_scan r repl (S pos) s' k
      end
  | O =>
      match match_at r pos s with
      | Some mo =>
          repl ++
          match s with
          | [] => []
          | x :: s' =>
              match (m_end mo - pos)%nat with
              | O => x :: sub_scan r repl (S pos) s' 0
              | S k => sub_scan r repl (S pos) s' k
              end
          end
      | None =>
          match s with
          | [] => []
          | x :: s' => x :: sub_scan r repl (S pos) s' 0
          end
      end
  end.

Definition sub (r : regex) (repl text : pystr) : pystr :=
  sub_scan r repl 0 text 0.

End Matching.

End Regex.

(** ** src/capacities/code_review/reviewer.py *)

Module Reviewer.
Import PyStr Regex.

Record CodeIssue := mkIssue {
  issue_category : pystr;
  issue_description : pystr;
  issue_line_number : option Z;
  severity : pystr
}.

Record CodeSuggestion := mkSuggestion {
  sugg_category : pystr;
  sugg_description : pystr;
  sugg_line_number : option Z;
  impact : pystr
}.

Record CodeReviewResult := mkReview {
  issues : list CodeIssue;
  suggestions : list CodeSuggestion;
  positives : list pystr;
  summary : pystr
}.

(** [CapacityResponse]; [data] is [{"review": result}] or [{}]. *)
Record CapacityResponse := mkResponse {
  success : bool;
  data_review : option CodeReviewResult;
  errors : option (list pystr)
}.

Definition ch (s : string) : N :=
  match py s with
  | c :: _ => c
  | [] => 0%N
  end.

(** [re.DOTALL | re.IGNORECASE] *)
Definition section_flags : flags := {| IGNORECASE := true; DOTALL := true |}.

(** [r"PROBLEMAS ENCONTRADOS:(.+?)(?:SUGESTÕES|PONTOS|RESUMO|$)"] *)
Definition problems_re : regex :=
  seqs [ lit (py "PROBLEMAS ENCONTRADOS:");
         Group 1 (Plus false Any);
         Alt (lit (py "SUGESTÕES"))
             (Alt (lit (py "PONTOS")) (Alt (lit (py "RESUMO")) Eol)) ].

(** [r"SUGESTÕES DE MELHORIA:(.+?)(?:PONTOS|RESUMO|$)"] *)
Definition suggestions_re : regex :=
  seqs [ lit (py "SUGESTÕES DE MELHORIA:");
         Group 1 (Plus false Any);
         Alt (lit (py "PONTOS")) (Alt (lit (py "RESUMO")) Eol) ].

(** [r"PONTOS POSITIVOS:(.+?)(?:RESUMO|$)"] *)
Definition positives_re : regex :=
  seqs [ lit (py "PONTOS POSITIVOS:");
         Group 1 (Plus false Any);
         Alt (lit (py "RESUMO")) Eol ].

(** [r"RESUMO:(.+?)$"] *)
Definition summary_re : regex :=
  seqs [ lit (py "RESUMO:"); Group 1 (Plus false Any); Eol ].

(** [([^(\n]+)] *)
Definition description_group : regex :=
  Group 2 (Plus true (CSet true [CChar (ch "("); CChar NL])).

(** [(\d+)] *)
Definition digits_group : regex :=
  Group 3 (Plus true (CSet false [CDigit])).

(** [([A-Z][\w\s]+)] *)
Definition capitalised_group : regex :=
  Group 1 (Seq (CSet false [CRange (ch "A") (ch "Z")])
               (Plus true (CSet false [CWord; CSpace]))).

(** [r"- \[([^\]]+)\] ([^(\n]+)(?:\(linha (\d+)\))?"] *)
Definition bracket_pattern : regex :=
  seqs [ lit (py "- [");
         Group 1 (Plus true (CSet true [CChar (ch "]")]));
         lit (py "] ");
         description_group;
         Opt (seqs [lit (py "(linha "); digits_group; lit (py ")")]) ].

(** [r"- ([A-Z][\w\s]+): ([^(\n]+)(?:\(linha (\d+)\))?"] *)
Definition dash_pattern : regex :=
  seqs [ lit (py "- ");
         capitalised_group;
         lit (py ": ");
         description_group;
         Opt (seqs [lit (py "(linha "); digits_group; lit (py ")")]) ].

(** [r"\* ([A-Z][\w\s]+): ([^(\n]+)(?:\(L(\d+)\))?"] *)
Definition star_pattern : regex :=
  seqs [ lit (py "* ");
         capitalised_group;
         lit (py ": ");
         description_group;
         Opt (seqs [lit (py "(L"); digits_group; lit (py ")")]) ].

Definition patterns : list regex :=
  [bracket_pattern; dash_pattern; star_pattern].

(** The pattern of [re.sub] in [_parse_positives]: [^], one of the
    markers [-], [*] and [•], whitespace [\s*], and then optionally
    a tag in square brackets followed by whitespace. *)
Definition marker_re : regex :=
  seqs [ Bol;
         CSet false [CChar (ch "-"); CChar (ch "*"); CChar (ch "•")];
         Star true (CSet false [CSpace]);
         Opt (seqs [ lit (py "[");
                     Plus true (CSet true [CChar (ch "]")]);
                     lit (py "]");
                     Star true (CSet false [CSpace]) ]) ].

Definition severity_words : list pystr :=
  [ py "crítico"; py "segurança"; py "vulnerável"; py "eval"; py "sql";
    py "senha"; py "password"; py "token"; py "secret" ].

Definition impact_words : list pystr :=
  [ py "performance"; py "segurança"; py "arquitetura"; py "crítico" ].

Definition default_summary : pystr := py "Análise de código concluída.".

Section Parsing.
Context {U : UnicodeDB}.

(** [match.group(n)] of a group that lies outside every optional part
    of its pattern. *)
Definition group_str (mo : match_obj) (n : nat) : pystr :=
  match group mo n with
  | Some s => s
  | None => []
  end.

(** [int(s)] of a run of decimal digits. *)
Definition int_of_digits (s : pystr) : Z :=
  fold_left
    (fun acc c => acc * 10 + match digit_value c with Some d => d | None => 0 end)
    s 0.

(** [int(match.group(3)) if match.group(3) else None] *)
Definition line_num_of (mo : match_obj) : option Z :=
  match group mo 3 with
  | Some (c :: s) => Some (int_of_digits (c :: s))
  | Some [] => None
  | None => None
  end.

(** [any(word in description.lower() for word in words)] *)
Definition any_word_in (words : list pystr) (description : pystr) : bool :=
  existsb (fun word => contains word (str_lower description)) words.

Definition issue_of_match (mo : match_obj) : CodeIssue :=
  let category := strip (group_str mo 1) in
  let description := strip (group_str mo 2) in
  let line_num := line_num_of mo in
  let severity :=
    if any_word_in severity_words description
    then py "high" else py "medium" in
  {| issue_category := category;
     issue_description := description;
     issue_line_number := line_num;
     severity := severity |}.

Definition suggestion_of_match (mo : match_obj) : CodeSuggestion :=
  let category := strip (group_str mo 1) in
  let description := strip (group_str mo 2) in
  let line_num := line_num_of mo in
  let impact :=
    if any_word_in impact_words description
    then py "high" else py "medium" in
  {| sugg_category := category;
     sugg_description := description;
     sugg_line_number := line_num;
     impact := impact |}.

(** [_parse_issues(text)] *)
Definition _parse_issues (text : pystr) : list CodeIssue :=
  match search section_flags problems_re text with
  | Some problems_section =>
      let problems_text := group_str problems_section 1 in
      fold_left
        (fun issues pattern =>
           fold_left
             (fun issues mo => issues ++ [issue_of_match mo])
             (finditer no_flags pattern problems_text) issues)
        patterns []
  | None => []
  end.

(** [_parse_suggestions(text)] *)
Definition _parse_suggestions (text : pystr) : list CodeSuggestion :=
  match search section_flags suggestions_re text with
  | Some suggestions_section =>
      let suggestions_text := group_str suggestions_section 1 in
      fold_left
        (fun suggestions pattern =>
           fold_left
             (fun suggestions mo => suggestions ++ [suggestion_of_match mo])
             (finditer no_flags pattern suggestions_text) suggestions)
        patterns []
  | None => []
  end.

(** [line.startswith(('-', '*', '•'))] *)
Definition starts_with_marker (line : pystr) : bool :=
  startswith (py "-") line || startswith (py "*") line
  || startswith (py "•") line.

(** [_parse_positives(text)] *)
Definition _parse_positives (text : pystr) : list pystr :=
  match search section_flags positives_re text with
  | Some positives_section =>
      let positives_text := group_str positives_section 1 in
      fold_left
        (fun positives line =>
           let line := strip line in
           match line with
           | [] => positives
           | _ :: _ =>
               if starts_with_marker line
               then let positive := strip (sub no_flags marker_re (py "") line) in
                    match positive with
                    | [] => positives
                    | _ :: _ => positives ++ [positive]
                    end
               else positives
           end)
        (split_on NL positives_text) []
  | None => []
  end.

(** [_parse_summary(text)] *)
Definition _parse_summary (text : pystr) : pystr :=
  match search section_flags summary_re text with
  | Some summary_section =>
      let summary := strip (group_str summary_section 1) in
      let summary := join (py " ") (split summary) in
      summary
  | None => default_summary
  end.

(** [process_response(response)]; none of the four parsers raises, so
    the [except] branch is never taken. *)
Definition process_response (response : pystr) : CapacityResponse :=
  let issues := _parse_issues response in
  let suggestions := _parse_suggestions response in
  let positives := _parse_positives response in
  let summary := _parse_summary response in
  let result :=
    {| issues := issues;
       suggestions := suggestions;
       positives := positives;
       summary := summary |} in
  {| success := true; data_review := Some result; errors := None |}.

End Parsing.

End Reviewer.

(** ** The character database on the Latin-1 range

CPython's tables restricted to the code points below 256; above, no
character is cased, alphanumeric or a digit here. Used for the concrete
scenarios only, whose texts stay in that range. *)

Module Latin1.
Import PyStr.

Definition lower_char (c : N) : N :=
  if ((65 <=? c) && (c <=? 90)
      || (192 <=? c) && (c <=? 222) && negb (c =? 215))%N
  then (c + 32)%N else c.

Definition alnum_char (c : N) : bool :=
  ((48 <=? c) && (c <=? 57) || (65 <=? c) && (c <=? 90)
   || (97 <=? c) && (c <=? 122)
   || (c =? 170) || (c =? 178) || (c =? 179) || (c =? 181)
   || (c =? 185) || (c =? 186) || (188 <=? c) && (c <=? 190)
   || (192 <=? c) && (c <=? 214) || (216 <=? c) && (c <=? 246)
   || (248 <=? c) && (c <=? 255))%N.

Definition digit_char (c : N) : option Z :=
  if ((48 <=? c) && (c <=? 57))%N then Some (Z.of_N c - 48) else None.

Definition db : UnicodeDB :=
  {| str_lower := map lower_char;
     ci_eq := fun p c => code_eqb (lower_char p) (lower_char c);
     is_alnum := alnum_char;
     digit_value := digit_char |}.

End Latin1.

(** ** src/core/engine.py *)

Module Engine.
Import PyStr.
Export SearchEngine.

(** An exception of class [Exception], with its [str(e)]. *)
Inductive exn := Exception (msg : pystr).

Definition str_of_exn (e : exn) : pystr :=
  match e with Exception msg => msg end.

Inductive outcome (A : Type) :=
| Returned (a : A)
| Raised (e : exn).
Arguments Returned {A} a.
Arguments Raised {A} e.

(** The collaborators handed to [RAGEngine.__init__] and the clock. Each
    call may change the state [World] of the outside and may raise.
    Floating-point time stamps are kept abstract. *)
Class Collaborators := {
  World : Type;
  Retriever : Type;
  Time : Type;
  (** [self.loader.load(path, glob)] *)
  loader_load : pystr -> pystr -> World -> outcome (list Document) * World;
  (** [self.vector_store.add_documents(docs)] *)
  add_documents : list Document -> World -> outcome (list pystr) * World;
  (** [self.vector_store.get_retriever] with [kwargs] as its keyword
      arguments *)
  get_retriever : gmap string pyval -> World -> outcome Retriever * World;
  (** [hasattr(self.vector_store, 'delete_collection')] *)
  has_delete_collection : bool;
  (** [self.vector_store.delete_collection()] *)
  delete_collection : World -> outcome unit * World;
  (** [retriever.invoke(question)] *)
  retriever_invoke : Retriever -> pystr -> World -> outcome (list Document) * World;
  (** [self.llm.ask(question, context=full_context)] *)
  llm_ask : pystr -> pystr -> World -> outcome pystr * World;
  (** [self.llm.model_name] *)
  llm_model_name : pystr;
  (** [time.time()] *)
  time_time : World -> Time * World;
  (** [t1 - t0] and [round(t, 2)] on floats *)
  time_sub : Time -> Time -> Time;
  round2 : Time -> Time
}.

Section Pipeline.
Context {C : Collaborators}.

(** The calls made to the collaborators, in order. *)
Inductive call :=
| CallLoad (path glob : pystr)
| CallAddDocuments (docs : list Document)
| CallGetRetriever (kwargs : gmap string pyval)
| CallDeleteCollection
| CallInvoke (question : pystr)
| CallLlmAsk (question context : pystr).

(** The attributes of a [RAGEngine] that change after [__init__]. *)
Record RAGEngine := mkEngine {
  retriever : option Retriever;
  is_indexed : bool;
  retriever_config : gmap string pyval
}.

Record machine := mkMachine {
  self : RAGEngine;
  world : World;
  calls : list call
}.

(** Computations that read and write the engine and the outside and
    may raise. *)
Definition M (A : Type) : Type := machine -> outcome A * machine.

Definition ret {A} (a : A) : M A := fun m => (Returned a, m).

Definition bind {A B} (c : M A) (k : A -> M B) : M B :=
  fun m =>
    match c m with
    | (Returned a, m') => k a m'
    | (Raised e, m') => (Raised e, m')
    end.

Definition raise {A} (e : exn) : M A := fun m => (Raised e, m).

(** [try: body  except Exception as e: handler(e)] *)
Definition try_except {A} (body : M A) (handler : exn -> M A) : M A :=
  fun m =>
    match body m with
    | (Returned a, m') => (Returned a, m')
    | (Raised e, m') => handler e m'
    end.

Definition get_self : M RAGEngine := fun m => (Returned (self m), m).

Definition set_self (f : RAGEngine -> RAGEngine) : M unit :=
  fun m => (Returned tt,
            {| self := f (self m); world := world m; calls := calls m |}).

(** A call to a collaborator, recorded in [calls]. *)
Definition external {A} (c : call) (f : World -> outcome A * World) : M A :=
  fun m =>
    let '(r, w) := f (world m) in
    (r, {| self := self m; world := w; calls := calls m ++ [c] |}).

Definition now : M Time :=
  fun m =>
    let '(t, w) := time_time (world m) in
    (Returned t, {| self := self m; world := w; calls := calls m |}).

Declare Scope engine_scope.
Delimit Scope engine_scope with engine.
Local Notation "x <- c ;; k" := (bind c (fun x => k))
  (at level 100, c at next level, right associativity) : engine_scope.
Local Notation "c ;;; k" := (bind c (fun _ => k))
  (at level 100, right associativity) : engine_scope.
Local Open Scope engine_scope.

Definition set_retriever (r : option Retriever) : M unit :=
  set_self (fun e => {| retriever := r;
                        is_indexed := is_indexed e;
                        retriever_config := retriever_config e |}).

Definition set_is_indexed (b : bool) : M unit :=
  set_self (fun e => {| retriever := retriever e;
                        is_indexed := b;
                        retriever_config := retriever_config e |}).

Definition set_retriever_config (cfg : gmap string pyval) : M unit :=
  set_self (fun e => {| retriever := retriever e;
                        is_indexed := is_indexed e;
                        retriever_config := cfg |}).

Definition default_retriever_config : gmap string pyval :=
  {[ "search_type"%string := PStr (py "similarity");
     "k"%string := PInt 4;
     "score_threshold"%string := PFloat (1 # 2) ]}.

(** [RAGEngine.__init__]: [retriever_config or {...}] takes the default
    for [None] and for an empty dictionary. *)
Definition __init__ (cfg : option (gmap string pyval)) : RAGEngine :=
  {| retriever := None;
     is_indexed := false;
     retriever_config :=
       match cfg with
       | Some c => if decide (c = ∅) then default_retriever_config else c
       | None => default_retriever_config
       end |}.

(** The value of ["elapsed_time"]: the literal [0] or a float. *)
Inductive elapsed :=
| ElapsedZero
| Elapsed (t : Time).

(** The dictionary returned by [setup_pipeline]; keys that one of the
    two shapes lacks are options. *)
Record setup_stats := mkStats {
  documents_loaded : Z;
  documents_indexed : Z;
  stats_elapsed_time : elapsed;
  stats_retriever_config : option (gmap string pyval);
  stats_error : option pystr;
  stats_status : pystr
}.

(** [setup_pipeline(path, glob)]. Console output is left out, except
    for the [retriever_config['search_type']] it reads. *)
Definition setup_pipeline (path glob : pystr) : M setup_stats :=
  start_time <- now ;;
  try_except
    (docs <- external (CallLoad path glob) (loader_load path glob) ;;
     match docs with
     | [] => raise (Exception (py "Nenhum documento foi carregado"))
     | _ :: _ =>
         doc_ids <- external (CallAddDocuments docs) (add_documents docs) ;;
         e <- get_self ;;
         r <- external (CallGetRetriever (retriever_config e))
                       (get_retriever (retriever_config e)) ;;
         set_retriever (Some r) ;;;
         match retriever_config e !! "search_type"%string with
         | None => raise (Exception (py "'search_type'"))
         | Some _ =>
             set_is_indexed true ;;;
             t <- now ;;
             let elapsed_time := time_sub t start_time in
             ret {| documents_loaded := Z.of_nat (length docs);
                    documents_indexed := Z.of_nat (length doc_ids);
                    stats_elapsed_time := Elapsed (round2 elapsed_time);
                    stats_retriever_config := Some (retriever_config e);
                    stats_error := None;
                    stats_status := py "success" |}
         end
     end)
    (fun e =>
       let error_msg := py "Erro ao configurar pipeline: " ++ str_of_exn e in
       t <- now ;;
       ret {| documents_loaded := 0;
              documents_indexed := 0;
              stats_elapsed_time := Elapsed (time_sub t start_time);
              stats_retriever_config := None;
              stats_error := Some error_msg;
              stats_status := py "error" |}).

(** An element of ["sources"] in the result of [ask]. *)
Record source_info := mkSourceInfo {
  si_index : Z;
  si_source : pyval;
  si_file_type : pyval;
  si_file_size : pyval;
  si_content_preview : pystr
}.

(** The dictionary returned by [ask]; keys that some of its three
    shapes lack are options. *)
Record ask_result := mkAnswer {
  answer : pystr;
  ans_question : pystr;
  ans_context : pystr;
  ans_sources : list source_info;
  ans_status : pystr;
  ans_elapsed_time : elapsed;
  retrieved_docs_count : option Z;
  llm_model : option pystr;
  ans_error : option pystr
}.

Definition not_indexed_result (question : pystr) : ask_result :=
  {| answer := py "Sistema não está indexado. Execute setup_pipeline() primeiro.";
     ans_question := question;
     ans_context := py "";
     ans_sources := [];
     ans_status := py "error";
     ans_elapsed_time := ElapsedZero;
     retrieved_docs_count := None;
     llm_model := None;
     ans_error := None |}.

(** [doc.metadata.get(key, dflt)] for a key other than ['source']. *)
Definition metadata_get (doc : Document) (key : string) (dflt : pyval) : pyval :=
  match other_metadata doc !! key with
  | Some v => v
  | None => dflt
  end.

Definition source_info_of (i : Z) (doc : Document) : source_info :=
  {| si_index := i;
     si_source := PStr (metadata_get_source doc (py "N/A"));
     si_file_type := metadata_get doc "file_type" (PStr (py "N/A"));
     si_file_size := metadata_get doc "file_size" (PInt 0);
     si_content_preview :=
       if len (page_content doc) >? 150
       then slice_to (page_content doc) 150 ++ py "..."
       else page_content doc |}.

(** [f"[DOCUMENTO {i}]\n{doc.page_content}"] *)
Definition document_part (i : Z) (doc : Document) : pystr :=
  py "[DOCUMENTO " ++ str_of_int i ++ py "]" ++ [NL] ++ page_content doc.

(** [ask(question, include_sources, retriever_kwargs)]; an absent or
    empty [retriever_kwargs] selects the retriever of the engine. *)
Definition ask (question : pystr) (include_sources : bool)
    (retriever_kwargs : option (gmap string pyval)) : M ask_result :=
  start_time <- now ;;
  e <- get_self ;;
  if negb (is_indexed e)
  then ret (not_indexed_result question)
  else
    try_except
      (retrieved_docs <-
         match retriever_kwargs with
         | Some kw =>
             if decide (kw = ∅)
             then match retriever e with
                  | Some r => external (CallInvoke question) (retriever_invoke r question)
                  | None => raise (Exception (py "'NoneType' object has no attribute 'invoke'"))
                  end
             else
               temp_retriever <- external (CallGetRetriever kw) (get_retriever kw) ;;
               external (CallInvoke question) (retriever_invoke temp_retriever question)
         | None =>
             match retriever e with
             | Some r => external (CallInvoke question) (retriever_invoke r question)
             | None => raise (Exception (py "'NoneType' object has no attribute 'invoke'"))
             end
         end ;;
       let numbered := enumerate retrieved_docs 1 in
       let context_parts := map (fun '(i, doc) => document_part i doc) numbered in
       let sources :=
         if include_sources
         then map (fun '(i, doc) => source_info_of i doc) numbered
         else [] in
       let full_context := join [NL; NL] context_parts in
       answer <- external (CallLlmAsk question full_context)
                          (llm_ask question full_context) ;;
       t <- now ;;
       let elapsed_time := time_sub t start_time in
       ret {| answer := answer;
              ans_question := question;
              ans_context := full_context;
              ans_sources := if include_sources then sources else [];
              ans_status := py "success";
              ans_elapsed_time := Elapsed (round2 elapsed_time);
              retrieved_docs_count := Some (Z.of_nat (length retrieved_docs));
              llm_model := Some llm_model_name;
              ans_error := None |})
      (fun ex =>
         let error_msg := py "Erro ao processar pergunta: " ++ str_of_exn ex in
         t <- now ;;
         ret {| answer := py "Erro interno: " ++ error_msg;
                ans_question := question;
                ans_context := py "";
                ans_sources := [];
                ans_status := py "error";
                ans_elapsed_time := Elapsed (time_sub t start_time);
                retrieved_docs_count := None;
                llm_model := None;
                ans_error := Some error_msg |}).

(** [update_retriever_config] with keyword arguments [kwargs]:
    [self.retriever_config.update(kwargs)] lets the entries
    of [kwargs] win; without [try], what [get_retriever] raises leaves
    the method. *)
Definition update_retriever_config (kwargs : gmap string pyval) : M unit :=
  e <- get_self ;;
  set_retriever_config (kwargs ∪ retriever_config e) ;;;
  e <- get_self ;;
  if is_indexed e
  then
    r <- external (CallGetRetriever (retriever_config e))
                  (get_retriever (retriever_config e)) ;;
    set_retriever (Some r)
  else ret tt.

(** [clear_index()] *)
Definition clear_index : M unit :=
  try_except
    ((if has_delete_collection
      then external CallDeleteCollection delete_collection
      else ret tt) ;;;
     set_retriever None ;;;
     set_is_indexed false)
    (fun _ => ret tt).

(** A machine around a freshly constructed engine. *)
Definition fresh (cfg : option (gmap string pyval)) (w : World) : machine :=
  {| self := __init__ cfg; world := w; calls := [] |}.

Definition is_llm_call (c : call) : bool :=
  match c with
  | CallLlmAsk _ _ => true
  | _ => false
  end.

(** The calls of [self.llm.ask] made so far. *)
Definition llm_calls (m : machine) : list call :=
  List.filter is_llm_call (calls m).

End Pipeline.

End Engine.

(** ** Notions used to state the properties of the ranking *)

Module RankingSpec.
Import PyStr SearchEngine.

(** The order that [sort(key=..., reverse=True)] establishes. *)
Definition ge_key {A} (key : A -> Z) (a b : A) : Prop := key a >= key b.

(** The test [score > 0] of the loop. *)
Definition keeps (x : scored) : bool := scored_score x >? 0.

Definition part_of (p : Z * scored) : pystr :=
  context_part (fst p) (scored_path (snd p)) (scored_doc (snd p)).

Definition descriptor_of (p : Z * scored) : SourceDescriptor :=
  source_of (fst p) (snd p).

(** Two documents with the same text and the same origin. *)
Definition same_text (d1 d2 : Document) : Prop :=
  page_content d1 = page_content d2 /\ source d1 = source d2.

(** The document without its metadata other than ['source']. *)
Definition erase (d : Document) : Document :=
  {| page_content := page_content d;
     source := source d;
     other_metadata := ∅ |}.

Definition erase_scored (x : scored) : scored :=
  (erase (scored_doc x), scored_score x, scored_path x).

End RankingSpec.

(** ** Concrete inputs of the scenarios *)

Module Scenarios.
Import PyStr SearchEngine.

(** ["PROBLEMS FOUND:\n- [Security] Plain-text password (line 11)\n\nSUMMARY:\nNeeds fixing."] *)
Definition english_text : pystr :=
  py "PROBLEMS FOUND:" ++ [NL]
  ++ py "- [Security] Plain-text password (line 11)" ++ [NL; NL]
  ++ py "SUMMARY:" ++ [NL] ++ py "Needs fixing.".

(** The same review under the headers and the line marker the parsers
    look for:
    ["PROBLEMAS ENCONTRADOS:\n- [Security] Plain-text password (linha 11)\n\nRESUMO:\nNeeds fixing."] *)
Definition portuguese_text : pystr :=
  py "PROBLEMAS ENCONTRADOS:" ++ [NL]
  ++ py "- [Security] Plain-text password (linha 11)" ++ [NL; NL]
  ++ py "RESUMO:" ++ [NL] ++ py "Needs fixing.".

(** A problems section whose description names security and is critical,
    and a suggestions section about architecture. *)
Definition watchlist_text : pystr :=
  py "PROBLEMAS ENCONTRADOS:" ++ [NL]
  ++ py "- [Auth] Critical security flaw in login" ++ [NL; NL]
  ++ py "SUGESTÕES DE MELHORIA:" ++ [NL]
  ++ py "- [Design] Rethink the architecture of the module" ++ [NL].

(** A summary section with a blank body. *)
Definition blank_summary_text : pystr := py "RESUMO: ".

Definition loader_doc : Document :=
  {| page_content := py "def load(path): return open(path).read()";
     source := Some (py "src/loaders/py_loader.py");
     other_metadata := ∅ |}.

(** The same text and origin, with a size recorded. *)
Definition loader_doc_sized : Document :=
  {| page_content := py "def load(path): return open(path).read()";
     source := Some (py "src/loaders/py_loader.py");
     other_metadata := {[ "file_size"%string := PInt 1024 ]} |}.

(** The fixture [sample_review_response] of tests/conftest.py. *)
Definition sample_review_response : pystr :=
  [NL] ++ py "PROBLEMAS ENCONTRADOS:" ++ [NL]
  ++ py "- [Segurança] Armazenamento de senha em texto plano (linha 11)" ++ [NL]
  ++ py "- [Documentação] Falta de type hints nas funções (linha 2)" ++ [NL]
  ++ py "- [Validação] Ausência de validação de entrada (linha 10)" ++ [NL; NL]
  ++ py "SUGESTÕES DE MELHORIA:" ++ [NL]
  ++ py "- [Segurança] Use hash bcrypt ou similar para senhas (linha 11)" ++ [NL]
  ++ py "- [Documentação] Adicione type hints para melhor clareza" ++ [NL]
  ++ py "- [Performance] Considere usar cache para autenticação frequente" ++ [NL; NL]
  ++ py "PONTOS POSITIVOS:" ++ [NL]
  ++ py "- Estrutura de classe bem organizada" ++ [NL]
  ++ py "- Nomes de variáveis descritivos" ++ [NL]
  ++ py "- Separação clara de responsabilidades" ++ [NL; NL]
  ++ py "RESUMO:" ++ [NL]
  ++ py "O código apresenta problemas críticos de segurança com o armazenamento de senhas em texto plano. " ++ [NL]
  ++ py "Recomenda-se implementar hashing de senhas e adicionar validação de entrada." ++ [NL].

End Scenarios.

(** ** Notions used to state the properties of the summary parser *)

Module SummarySpec.
Import PyStr Regex Reviewer.

Section Spec.
Context {U : UnicodeDB}.

(** The text left when [s] starts with the literal [p] under the flags
    [fl]. *)
Fixpoint lit_prefix (fl : flags) (p s : pystr) : option pystr :=
  match p, s with
  | [], _ => Some s
  | x :: p', y :: s' =>
      if lit_matches fl x y then lit_prefix fl p' s' else None
  | _ :: _, [] => None
  end.

(** Where [$] matches: at the end of the text and before a newline that
    ends it. *)
Definition eol_ok (s : pystr) : bool :=
  match s with
  | [] => true
  | [x] => code_eqb x NL
  | _ => false
  end.

(** The number of characters of [s] before the first place where [$]
    matches. *)
Fixpoint lazy_len (s : pystr) : nat :=
  match s with
  | [] => O
  | _ :: s' => if eol_ok s then O else S (lazy_len s')
  end.

(** [hdr] is the header [RESUMO:] in some spelling that [re.IGNORECASE]
    accepts. *)
Definition is_summary_header (hdr : pystr) : Prop :=
  Forall2 (fun p c => ci_eq p c = true) (py "RESUMO:") hdr.

(** No header of the text is followed by any character. *)
Definition no_summary_section (text : pystr) : Prop :=
  forall pre hdr rest,
    text = pre ++ hdr ++ rest -> is_summary_header hdr -> rest = [].

End Spec.

End SummarySpec.

(** ** Stand-ins for the collaborators of the pipeline *)

Module StubCollaborators.
Import PyStr Engine Scenarios.

(** A loader that finds one document under [src] and nothing elsewhere, a
    vector store whose retriever is the configuration it was asked for, a
    generator with one answer, and a clock that ticks at every reading. *)
Definition stub : Collaborators :=
  {| World := nat;
     Retriever := gmap string pyval;
     Time := nat;
     loader_load := fun path _ w =>
       (Returned (if str_eqb path (py "src") then [loader_doc] else []), w);
     add_documents := fun docs w => (Returned (map (fun _ => py "id") docs), w);
     get_retriever := fun kwargs w => (Returned kwargs, w);
     has_delete_collection := true;
     delete_collection := fun w => (Returned tt, w);
     retriever_invoke := fun _ _ w => (Returned [loader_doc], w);
     llm_ask := fun _ _ w => (Returned (py "ok"), w);
     llm_model_name := py "stub";
     time_time := fun w => (w, S w);
     time_sub := Nat.sub;
     round2 := fun t => t |}.

(** A freshly constructed engine over the stand-ins. *)
Definition stub_machine : machine (C := stub) :=
  fresh (C := stub) None 0%nat.

End StubCollaborators.

(** ** search_engine.py: statistics and keyword search *)

Module SearchEngineTools.
Import PyStr SearchEngine.

(** An element of ['files'] in the result of [get_statistics]. *)
Record file_stats := mkFileStats {
  fs_path : pystr;
  fs_lines : Z;
  fs_chars : Z;
  fs_size : pyval
}.

(** The dictionary returned by [get_statistics]. *)
Record statistics := mkStatistics {
  total_docs : Z;
  total_lines : Z;
  total_chars : Z;
  files : list file_stats
}.

(** [len(doc.page_content.split('\n'))] *)
Definition line_count (doc : Document) : Z :=
  Z.of_nat (length (split_on NL (page_content doc))).

(** [sum(...)] of integers. *)
Definition py_sum (l : list Z) : Z := fold_left Z.add l 0.

(** [doc.metadata.get('file_size', 0)] *)
Definition metadata_file_size (doc : Document) : pyval :=
  match other_metadata doc !! "file_size"%string with
  | Some v => v
  | None => PInt 0
  end.

Definition file_entry (doc : Document) : file_stats :=
  {| fs_path := metadata_get_source doc (py "N/A");
     fs_lines := line_count doc;
     fs_chars := len (page_content doc);
     fs_size := metadata_file_size doc |}.

(** [get_statistics()] *)
Definition get_statistics (documents : list Document) : statistics :=
  match documents with
  | [] =>
      {| total_docs := 0; total_lines := 0; total_chars := 0; files := [] |}
  | _ :: _ =>
      let total_lines := py_sum (map line_count documents) in
      let total_chars := py_sum (map (fun doc => len (page_content doc)) documents) in
      let files := fold_left (fun files doc => files ++ [file_entry doc]) documents [] in
      {| total_docs := Z.of_nat (length documents);
         total_lines := total_lines;
         total_chars := total_chars;
         files := files |}
  end.

(** An element of the result of [search_by_keywords]. *)
Record keyword_hit := mkHit {
  kh_file : pystr;
  kh_matches : Z;
  kh_matched_keywords : list pystr;
  kh_lines : Z;
  kh_preview : pystr
}.

(** The length of [l[:stop]] for a list of length [n]. *)
Definition slice_bound (n stop : Z) : Z :=
  if stop <? 0 then Z.max (n + stop) 0 else Z.min stop n.

Section Keywords.
Context {U : UnicodeDB}.

(** The inner loop over [keywords]: the count of matches and the
    keywords that matched, in the order of [keywords]. *)
Definition keyword_step (content_lower : pystr)
  : Z * list pystr -> pystr -> Z * list pystr :=
  fun '(matches, matched_keywords) keyword =>
    if contains (str_lower keyword) content_lower
    then (matches + count content_lower (str_lower keyword),
          matched_keywords ++ [keyword])
    else (matches, matched_keywords).

Definition count_keywords (keywords : list pystr) (content_lower : pystr)
  : Z * list pystr :=
  fold_left (keyword_step content_lower) keywords (0, []).

(** The outer loop over [self.documents]. *)
Definition hit_step (keywords : list pystr)
  : list keyword_hit -> Document -> list keyword_hit :=
  fun results doc =>
    let content_lower := str_lower (page_content doc) in
    let file_path := metadata_get_source doc (py "N/A") in
    let '(matches, matched_keywords) := count_keywords keywords content_lower in
    if matches >? 0
    then results ++ [ {| kh_file := file_path;
                         kh_matches := matches;
                         kh_matched_keywords := matched_keywords;
                         kh_lines := line_count doc;
                         kh_preview := _get_preview (page_content doc) |} ]
    else results.

(** [results] before sorting. *)
Definition keyword_hits (documents : list Document) (keywords : list pystr)
  : list keyword_hit :=
  fold_left (hit_step keywords) documents [].

(** [search_by_keywords(keywords, max_results)] *)
Definition search_by_keywords (documents : list Document)
    (keywords : list pystr) (max_results : Z) : list keyword_hit :=
  slice_to (sort_desc kh_matches (keyword_hits documents keywords)) max_results.

(** What the inner loop keeps true: the count is not negative, a positive
    count comes with a matched keyword, and the matched keywords are
    keywords asked for that occur in the content. *)
Definition keywords_ok (keywords : list pystr) (content_lower : pystr)
    (r : Z * list pystr) : Prop :=
  0 <= fst r
  /\ (0 < fst r -> snd r <> [])
  /\ Forall (fun kw => In kw keywords
                       /\ contains (str_lower kw) content_lower = true)
            (snd r).

(** A hit as the outer loop builds it. *)
Definition hit_ok (keywords : list pystr) (h : keyword_hit) : Prop :=
  0 < kh_matches h
  /\ kh_matched_keywords h <> []
  /\ Forall (fun kw => In kw keywords) (kh_matched_keywords h)
  /\ 1 <= kh_lines h.

End Keywords.

End SearchEngineTools.

(** ** Notions used to state the properties of the extraction *)

Module ExtractionSpec.
Import PyStr Regex Reviewer.

(** [s] is empty or starts with a character that is not whitespace. *)
Definition starts_clean (s : pystr) : Prop :=
  match s with
  | [] => True
  | c :: _ => is_space c = false
  end.

(** No whitespace at either end. *)
Definition trimmed (s : pystr) : Prop :=
  starts_clean s /\ starts_clean (rev s).

(** A word: not empty and free of whitespace. *)
Definition is_word (w : pystr) : Prop :=
  w <> [] /\ Forall (fun c => is_space c = false) w.

Section Headers.
Context {U : UnicodeDB}.

(** The header [h] occurs nowhere in [text], in no spelling that
    [re.IGNORECASE] accepts. *)
Definition header_absent (h text : pystr) : Prop :=
  forall pre hd rest,
    text = pre ++ hd ++ rest -> ~ Forall2 (fun p c => ci_eq p c = true) h hd.

End Headers.

End ExtractionSpec.

(** ** reviewer.py on top of the engine: [prepare_context] *)

Module Capacity.
Import PyStr Engine.

Section Context.
Context {C : Collaborators}.

(** The question [prepare_context] asks. *)
Definition guidelines_question : pystr :=
  py "What are the project architecture guidelines, coding standards and best practices?".

(** The [try] block of [prepare_context]: [self.rag.ask(...)] with
    [include_sources=True] and [retriever_kwargs={"k": 3}], then
    [result.get("context", "")]; the bare [except] gives [""]. *)
Definition project_context : M pystr :=
  try_except
    (bind (ask guidelines_question true (Some {[ "k"%string := PInt 3 ]}))
          (fun result => ret (ans_context result)))
    (fun _ => ret (py "")).

(** [prepare_context(code, **kwargs)]: in the dictionary
    [{"code": code, "project_context": project_context, **kwargs}] the
    entries of [kwargs] come last and win. *)
Definition prepare_context (code : pystr) (kwargs : gmap string pyval)
  : M (gmap string pyval) :=
  bind project_context
       (fun ctx =>
          ret (kwargs ∪ {[ "code"%string := PStr code;
                          "project_context"%string := PStr ctx ]})).

End Context.

End Capacity.

(** ** Notions used to state the properties of the pipeline *)

Module EngineSpec.
Import PyStr Engine Scenarios.

Section Spec.
Context {C : Collaborators}.

(** An indexed engine has a retriever. *)
Definition has_retriever_when_indexed (e : RAGEngine) : Prop :=
  is_indexed e = true -> retriever e <> None.

(** [full_context] of [ask]: the retrieved documents, each under its
    [[DOCUMENTO i]] line, joined by blank lines. *)
Definition full_context_of (retrieved_docs : list Document) : pystr :=
  join [NL; NL]
       (map (fun '(i, doc) => document_part i doc) (enumerate retrieved_docs 1)).

(** The engine after a [clear_index] that went through. *)
Definition cleared (e : RAGEngine) : RAGEngine :=
  {| retriever := None;
     is_indexed := false;
     retriever_config := retriever_config e |}.

End Spec.

(** Stand-ins of which the generator and [delete_collection] fail. *)
Definition failing_stub : Collaborators :=
  {| World := nat;
     Retriever := gmap string pyval;
     Time := nat;
     loader_load := fun path _ w =>
       (Returned (if str_eqb path (py "src") then [loader_doc] else []), w);
     add_documents := fun docs w => (Returned (map (fun _ => py "id") docs), w);
     get_retriever := fun kwargs w =>
       (match kwargs !! "k"%string with
        | Some (PInt k) =>
            if k <? 0 then Raised (Exception (py "k must be positive"))
            else Returned kwargs
        | _ => Returned kwargs
        end, w);
     has_delete_collection := true;
     delete_collection := fun w => (Raised (Exception (py "locked")), w);
     retriever_invoke := fun _ _ w => (Returned [loader_doc], w);
     llm_ask := fun _ _ w => (Raised (Exception (py "timeout")), w);
     llm_model_name := py "stub";
     time_time := fun w => (w, S w);
     time_sub := Nat.sub;
     round2 := fun t => t |}.

(** An engine over the failing stand-ins that has been indexed. *)
Definition failing_indexed : machine (C := failing_stub) :=
  {| self := mkEngine (C := failing_stub)
               (Some (default_retriever_config : Retriever (Collaborators := failing_stub)))
               true default_retriever_config;
     world := 0%nat;
     calls := [] |}.

(** An engine over the working stand-ins that has been indexed. *)
Definition stub_indexed : machine (C := StubCollaborators.stub) :=
  {| self := mkEngine (C := StubCollaborators.stub)
               (Some (default_retriever_config
                      : Retriever (Collaborators := StubCollaborators.stub)))
               true default_retriever_config;
     world := 0%nat;
     calls := [] |}.

(** The working stand-ins, but for a vector store whose
    [delete_collection] raises. *)
Definition locked_stub : Collaborators :=
  {| World := nat;
     Retriever := gmap string pyval;
     Time := nat;
     loader_load := fun path _ w =>
       (Returned (if str_eqb path (py "src") then [loader_doc] else []), w);
     add_documents := fun docs w => (Returned (map (fun _ => py "id") docs), w);
     get_retriever := fun kwargs w => (Returned kwargs, w);
     has_delete_collection := true;
     delete_collection := fun w => (Raised (Exception (py "locked")), w);
     retriever_invoke := fun _ _ w => (Returned [loader_doc], w);
     llm_ask := fun _ _ w => (Returned (py "ok"), w);
     llm_model_name := py "stub";
     time_time := fun w => (w, S w);
     time_sub := Nat.sub;
     round2 := fun t => t |}.

(** An engine over them that has been indexed. *)
Definition locked_indexed : machine (C := locked_stub) :=
  {| self := mkEngine (C := locked_stub)
               (Some (default_retriever_config
                      : Retriever (Collaborators := locked_stub)))
               true default_retriever_config;
     world := 0%nat;
     calls := [] |}.

(** A fresh engine whose configuration lacks ['search_type']. *)
Definition stub_without_search_type : machine (C := StubCollaborators.stub) :=
  fresh (C := StubCollaborators.stub) (Some {[ "k"%string := PInt 3 ]}) 0%nat.

End EngineSpec.

(** * Properties *)

(** ** The ranking of the search engine *)

Module SearchEngineFacts.
Import PyStr SearchEngine RankingSpec.

Section Sorting.
Context {A : Type} (key : A -> Z).

Lemma insert_desc_perm x l : Permutation (insert_desc key x l) (x :: l).
Proof.
  induction l as [|y l IH]; simpl; [reflexivity|].
  destruct (key x <? key y); [|reflexivity].
  rewrite IH. apply perm_swap.
Qed.

Lemma sort_desc_perm l : Permutation (sort_desc key l) l.
Proof.
  induction l as [|x l IH]; simpl; [reflexivity|].
  rewrite insert_desc_perm. now constructor.
Qed.

Lemma insert_desc_sorted x l :
  StronglySorted (ge_key key) l -> StronglySorted (ge_key key) (insert_desc key x l).
Proof.
  induction 1 as [|y l Hs IH Hall]; simpl.
  - repeat constructor.
  - destruct (key x <? key y) eqn:Hlt.
    + constructor; [exact IH|].
      apply (Permutation_Forall (Permutation_sym (insert_desc_perm x l))).
      constructor; [|exact Hall].
      unfold ge_key. apply Z.ltb_lt in Hlt. lia.
    + apply Z.ltb_ge in Hlt.
      constructor; [constructor; assumption|].
      constructor; [unfold ge_key; lia|].
      eapply List.Forall_impl; [|exact Hall].
      unfold ge_key. intros z Hz. lia.
Qed.

Lemma sort_desc_sorted l : StronglySorted (ge_key key) (sort_desc key l).
Proof.
  induction l as [|x l IH]; simpl; [constructor|].
  now apply insert_desc_sorted.
Qed.

(** Insertion never moves [x] behind an element with the same key. *)
Lemma filter_insert_desc v x l :
  List.filter (fun y => key y =? v) (insert_desc key x l)
  = List.filter (fun y => key y =? v) (x :: l).
Proof.
  induction l as [|y l IH]; [reflexivity|].
  cbn [insert_desc].
  destruct (key x <? key y) eqn:Hlt; [|reflexivity].
  cbn [List.filter]. rewrite IH. cbn [List.filter].
  destruct (key x =? v) eqn:Hx, (key y =? v) eqn:Hy; try reflexivity.
  apply Z.ltb_lt in Hlt. apply Z.eqb_eq in Hx, Hy. lia.
Qed.

Lemma filter_sort_desc v l :
  List.filter (fun y => key y =? v) (sort_desc key l)
  = List.filter (fun y => key y =? v) l.
Proof.
  induction l as [|x l IH]; [reflexivity|].
  cbn [sort_desc]. rewrite filter_insert_desc.
  cbn [List.filter]. now rewrite IH.
Qed.

(** Sorting commutes with a map that keeps the keys. *)
Lemma insert_desc_map {B} (key' : B -> Z) (f : A -> B) x l :
  (forall a, key' (f a) = key a) ->
  insert_desc key' (f x) (map f l) = map f (insert_desc key x l).
Proof.
  intros Hk. induction l as [|y l IH]; [reflexivity|].
  cbn [map insert_desc]. rewrite !Hk.
  destruct (key x <? key y); cbn [map]; [now rewrite IH|reflexivity].
Qed.

Lemma sort_desc_map {B} (key' : B -> Z) (f : A -> B) l :
  (forall a, key' (f a) = key a) ->
  sort_desc key' (map f l) = map f (sort_desc key l).
Proof.
  intros Hk. induction l as [|x l IH]; [reflexivity|].
  cbn [map sort_desc]. rewrite IH. now apply insert_desc_map.
Qed.

End Sorting.

Section Ranking.
Context {U : UnicodeDB}.

Lemma score_documents_docs ql documents :
  map scored_doc (score_documents ql documents) = documents.
Proof.
  unfold score_documents. rewrite map_map. cbn. apply map_id.
Qed.

Lemma score_documents_score ql documents :
  Forall (fun x => scored_score x = _calculate_relevance_score ql (scored_doc x))
         (score_documents ql documents).
Proof.
  unfold score_documents. apply Forall_map. apply Forall_forall.
  intros d _. reflexivity.
Qed.

Lemma filter_score_documents ql v documents :
  map scored_doc
      (List.filter (fun x => scored_score x =? v) (score_documents ql documents))
  = List.filter (fun d => _calculate_relevance_score ql d =? v) documents.
Proof.
  induction documents as [|d l IH]; [reflexivity|].
  cbn [score_documents map List.filter].
  unfold scored_score at 1. cbn [fst snd].
  destruct (_calculate_relevance_score ql d =? v); cbn [map];
    [unfold scored_doc at 1; cbn [fst]; f_equal|]; exact IH.
Qed.

End Ranking.

Section Selection.
Context {U : UnicodeDB}.

Lemma count_scan_nonneg sub s skip : 0 <= count_scan sub s skip.
Proof.
  revert skip. induction s as [|c s IH]; intros skip; cbn [count_scan]; [lia|].
  destruct skip; [|apply IH].
  destruct (startswith sub (c :: s)); [|apply IH].
  specialize (IH (length sub - 1)%nat). lia.
Qed.

Lemma count_nonneg s sub : 0 <= count s sub.
Proof.
  unfold count, len. destruct sub; [lia|apply count_scan_nonneg].
Qed.

Lemma fold_left_nonneg {B} (f : Z -> B -> Z) (l : list B) (a : Z) :
  (forall acc b, 0 <= acc -> 0 <= f acc b) -> 0 <= a -> 0 <= fold_left f l a.
Proof.
  intros Hf. revert a. induction l as [|b l IH]; intros a Ha; cbn; [exact Ha|].
  apply IH. now apply Hf.
Qed.

(** A relevance score is never negative. *)
Lemma score_nonneg ql doc : 0 <= _calculate_relevance_score ql doc.
Proof.
  unfold _calculate_relevance_score.
  apply fold_left_nonneg.
  { intros acc p Hacc. pose proof (count_nonneg (str_lower (page_content doc)) p). lia. }
  assert (0 <= len (str_lower (page_content doc)) / 1000)
    by (apply Z.div_pos; unfold len; lia).
  match goal with |- 0 <= ?a + _ => assert (0 <= a) end; [|lia].
  apply fold_left_nonneg.
  { intros acc [component keywords] Hacc.
    destruct (existsb _ keywords); [|exact Hacc].
    destruct (contains component _); lia. }
  apply fold_left_nonneg; [|lia].
  intros acc word Hacc.
  destruct (len word >? 2); [|exact Hacc].
  pose proof (count_nonneg (str_lower (page_content doc)) word). lia.
Qed.

Lemma fold_collect_step l cp ss :
  fold_left collect_step l (cp, ss)
  = (cp ++ map part_of (List.filter (fun p => keeps (snd p)) l),
     ss ++ map descriptor_of (List.filter (fun p => keeps (snd p)) l)).
Proof.
  revert cp ss.
  induction l as [|[i x] l IH]; intros cp ss; cbn [fold_left List.filter map].
  - now rewrite !app_nil_r.
  - cbn [snd collect_step].
    change (scored_score x >? 0) with (keeps x).
    destruct (keeps x); rewrite IH; [|reflexivity].
    cbn [map]. now rewrite <- !app_assoc.
Qed.

(** The loop of [find_relevant_context] as a filter followed by maps. *)
Lemma collect_spec top_docs :
  collect top_docs
  = (map part_of (List.filter (fun p => keeps (snd p)) (enumerate top_docs 1)),
     map descriptor_of (List.filter (fun p => keeps (snd p)) (enumerate top_docs 1))).
Proof.
  unfold collect. apply (fold_collect_step _ [] []).
Qed.

Lemma firstn_strongly_sorted {A} (R : A -> A -> Prop) n l :
  StronglySorted R l -> StronglySorted R (firstn n l).
Proof.
  intros Hs. revert n. induction Hs as [|x l Hs IH Hall]; intros [|n]; cbn;
    try constructor; [apply IH|].
  now apply Forall_take.
Qed.

Lemma filter_enumerate_none (l : list scored) start :
  Forall (fun x => keeps x = false) l ->
  List.filter (fun p => keeps (snd p)) (enumerate l start) = []
  /\ List.filter keeps l = [].
Proof.
  intros H. revert start. induction H as [|x l Hx Hl IH]; intros start;
    cbn [enumerate List.filter snd]; [now split|].
  rewrite Hx. apply IH.
Qed.

(** In a list sorted by descending score the entries that are kept form
    a prefix, so they keep the positions [enumerate] gave them. *)
Lemma filter_enumerate_sorted (l : list scored) start :
  StronglySorted (ge_key scored_score) l ->
  List.filter (fun p => keeps (snd p)) (enumerate l start)
  = enumerate (List.filter keeps l) start.
Proof.
  intros Hs. revert start.
  induction Hs as [|x l Hs IH Hall]; intros start; [reflexivity|].
  cbn [enumerate List.filter snd].
  destruct (keeps x) eqn:Hx.
  - cbn [enumerate]. now rewrite IH.
  - assert (Hnone : Forall (fun y => keeps y = false) l).
    { eapply List.Forall_impl; [|exact Hall].
      intros y Hy. unfold keeps, ge_key in *.
      rewrite Z.gtb_ltb in Hx |- *.
      apply Z.ltb_ge in Hx. apply Z.ltb_ge. lia. }
    destruct (filter_enumerate_none l (start + 1) Hnone) as [-> ->].
    reflexivity.
Qed.

End Selection.

Section Erasure.
Context {U : UnicodeDB}.

Lemma erase_same_text docs1 docs2 :
  Forall2 same_text docs1 docs2 -> map erase docs1 = map erase docs2.
Proof.
  induction 1 as [|d1 d2 l1 l2 [Hc Hs] _ IH]; [reflexivity|].
  cbn [map]. rewrite IH. f_equal.
  unfold erase. now rewrite Hc, Hs.
Qed.

Lemma score_erase ql d :
  _calculate_relevance_score ql (erase d) = _calculate_relevance_score ql d.
Proof.
  unfold _calculate_relevance_score, metadata_get_source, erase.
  cbn [page_content source]. reflexivity.
Qed.

Lemma score_documents_erase ql docs :
  score_documents ql (map erase docs) = map erase_scored (score_documents ql docs).
Proof.
  unfold score_documents. rewrite !map_map. apply map_ext. intros d.
  unfold erase_scored, scored_doc, scored_score, scored_path. cbn [fst snd].
  now rewrite score_erase.
Qed.

Lemma doc_scores_erase question docs :
  doc_scores question (map erase docs) = map erase_scored (doc_scores question docs).
Proof.
  unfold doc_scores. rewrite score_documents_erase.
  apply sort_desc_map. reflexivity.
Qed.

Lemma slice_to_map {A B} (f : A -> B) l stop :
  slice_to (map f l) stop = map f (slice_to l stop).
Proof.
  unfold slice_to. rewrite length_map. apply firstn_map.
Qed.

Lemma fold_collect_erase l start acc :
  fold_left collect_step (enumerate (map erase_scored l) start) acc
  = fold_left collect_step (enumerate l start) acc.
Proof.
  revert start acc. induction l as [|x l IH]; intros start acc; [reflexivity|].
  cbn [map enumerate fold_left]. rewrite IH. f_equal.
  destruct acc as [cp ss], x as [[d sc] pth]. reflexivity.
Qed.

Lemma find_relevant_context_erase docs question max_docs :
  find_relevant_context (map erase docs) question max_docs
  = find_relevant_context docs question max_docs.
Proof.
  destruct docs as [|d docs]; [reflexivity|].
  change (map erase (d :: docs)) with (erase d :: map erase docs).
  unfold find_relevant_context.
  change (erase d :: map erase docs) with (map erase (d :: docs)).
  rewrite doc_scores_erase, slice_to_map.
  unfold collect. now rewrite fold_collect_erase.
Qed.

End Erasure.

Section Claims.
Context {U : UnicodeDB}.

Lemma enumerate_snd {A} (l : list A) start : map snd (enumerate l start) = l.
Proof.
  revert start. induction l as [|x l IH]; intros start; [reflexivity|].
  cbn [enumerate map snd]. now rewrite IH.
Qed.

Lemma slice_to_nonneg {A} (l : list A) stop :
  0 <= stop -> slice_to l stop = firstn (Z.to_nat stop) l.
Proof.
  intros H. unfold slice_to.
  destruct (stop <? 0) eqn:Hneg; [apply Z.ltb_lt in Hneg; lia|].
  destruct (Z.le_ge_cases stop (Z.of_nat (length l))) as [Hle|Hge].
  - now rewrite Z.min_l.
  - rewrite Z.min_r by exact Hge. rewrite Nat2Z.id.
    rewrite !firstn_all2; [reflexivity|lia|lia].
Qed.

(** C3 (ranking order). The list [doc_scores] that
    [find_relevant_context] sorts is in descending order of score, it
    holds the scored documents of the corpus, and for every score [v]
    the documents with that score stand in it in corpus order: the
    sort is stable. *)
Theorem doc_scores_ranked (question : pystr) (documents : list Document) :
  StronglySorted (fun a b => scored_score a >= scored_score b)
                 (doc_scores question documents)
  /\ Permutation (doc_scores question documents)
                 (score_documents (str_lower question) documents)
  /\ forall v : Z,
       map scored_doc
           (List.filter (fun x => scored_score x =? v)
                        (doc_scores question documents))
       = List.filter
           (fun d => _calculate_relevance_score (str_lower question) d =? v)
           documents.
Proof.
  unfold doc_scores. split; [|split].
  - apply (sort_desc_sorted scored_score).
  - apply sort_desc_perm.
  - intros v. rewrite filter_sort_desc. apply filter_score_documents.
Qed.

(** C2 (exclusion invariant). Every source descriptor returned by
    [find_relevant_context] has a score above 0; the sources and the
    context are built from the entries of [top_docs] with a positive
    score alone, numbered from 1; the documents left out are still in
    the full list [doc_scores], where no score is negative. *)
Theorem find_relevant_context_excludes_zero
    (question : pystr) (documents : list Document) (max_docs : Z) :
  let kept :=
    List.filter (fun x => scored_score x >? 0)
                (slice_to (doc_scores question documents) max_docs) in
  let out := find_relevant_context documents question max_docs in
  Forall (fun s => src_score s > 0) (snd out)
  /\ snd out = map (fun p => source_of (fst p) (snd p)) (enumerate kept 1)
  /\ fst out
     = join [NL; NL]
            (map (fun p => context_part (fst p) (scored_path (snd p))
                                        (scored_doc (snd p)))
                 (enumerate kept 1))
  /\ Permutation (map scored_doc (doc_scores question documents)) documents
  /\ Forall (fun x => scored_score x >= 0) (doc_scores question documents).
Proof.
  intros kept out.
  assert (Hout : out = (join [NL; NL] (map part_of (enumerate kept 1)),
                        map descriptor_of (enumerate kept 1))).
  { subst out kept. destruct documents as [|d documents].
    - cbn [find_relevant_context doc_scores score_documents map sort_desc].
      unfold slice_to. rewrite firstn_nil. reflexivity.
    - unfold find_relevant_context.
      rewrite collect_spec, filter_enumerate_sorted; [reflexivity|].
      unfold slice_to. apply firstn_strongly_sorted.
      apply (sort_desc_sorted scored_score). }
  rewrite Hout. cbn [fst snd].
  split; [|split; [reflexivity|split; [reflexivity|split]]].
  - apply List.Forall_map. apply List.Forall_forall. intros p Hp.
    assert (Hin : In (snd p) kept).
    { rewrite <- (enumerate_snd kept 1). now apply in_map. }
    apply filter_In in Hin. destruct Hin as [_ Hpos].
    unfold descriptor_of, source_of. cbn [src_score].
    rewrite Z.gtb_ltb in Hpos. apply Z.ltb_lt in Hpos. lia.
  - unfold doc_scores.
    rewrite (Permutation_map scored_doc (sort_desc_perm scored_score _)).
    now rewrite score_documents_docs.
  - unfold doc_scores.
    apply (Permutation_Forall
             (Permutation_sym (sort_desc_perm scored_score _))).
    unfold score_documents. apply Forall_map. apply Forall_forall.
    intros d _. unfold scored_score. cbn [fst snd].
    pose proof (score_nonneg (str_lower question) d). lia.
Qed.

(** C9 (determinism). The relevance score of a document depends on the
    question, the text and the origin of the document only, and so
    does the result of [find_relevant_context]: two corpora whose
    documents agree, one by one, on text and origin get the same
    scores, the same ranking and the same context and sources,
    whatever their other metadata. As functions of the question and
    the corpus, both give the same result at every invocation. *)
Theorem ranking_depends_on_text_and_origin
    (question : pystr) (docs1 docs2 : list Document) (max_docs : Z) :
  Forall2 same_text docs1 docs2 ->
  map (_calculate_relevance_score (str_lower question)) docs1
  = map (_calculate_relevance_score (str_lower question)) docs2
  /\ map (fun x => (scored_score x, scored_path x)) (doc_scores question docs1)
     = map (fun x => (scored_score x, scored_path x)) (doc_scores question docs2)
  /\ find_relevant_context docs1 question max_docs
     = find_relevant_context docs2 question max_docs.
Proof.
  intros Hsame. apply erase_same_text in Hsame. split; [|split].
  - transitivity
      (map (_calculate_relevance_score (str_lower question)) (map erase docs1)).
    + rewrite map_map. apply map_ext. intros d. symmetry. apply score_erase.
    + rewrite Hsame, map_map. apply map_ext. intros d. apply score_erase.
  - transitivity
      (map (fun x => (scored_score x, scored_path x))
           (doc_scores question (map erase docs1))).
    + rewrite doc_scores_erase, map_map. reflexivity.
    + rewrite Hsame, doc_scores_erase, map_map. reflexivity.
  - rewrite <- (find_relevant_context_erase docs1),
            <- (find_relevant_context_erase docs2).
    now rewrite Hsame.
Qed.

End Claims.

(** C4 (preview bound), as the code has it: the preview is the content
    itself when the content has at most 150 characters, and otherwise
    its first 150 characters followed by the three characters of the
    ellipsis, which is appended exactly when the content was cut; the
    preview is at most 153 characters long. *)
Theorem get_preview_bound (content : pystr) :
  len (_get_preview content) <= 153
  /\ _get_preview content
     = (if len content <=? 150 then content
        else firstn 150 content ++ py "...")
  /\ (_get_preview content = firstn 150 content ++ py "..."
      <-> 150 < len content).
Proof.
  unfold _get_preview, _get_preview_n.
  rewrite (slice_to_nonneg content 150) by lia.
  change (Z.to_nat 150) with 150%nat.
  assert (Hdots : length (py "...") = 3%nat) by reflexivity.
  destruct (len content <=? 150) eqn:Hle.
  - apply Z.leb_le in Hle. split; [lia|]. split; [reflexivity|].
    split; [|lia]. intros Heq. apply (f_equal (@length N)) in Heq.
    rewrite length_app, Hdots, firstn_all2 in Heq; unfold len in Hle; lia.
  - apply Z.leb_gt in Hle. unfold len in *.
    split; [|split; [reflexivity|tauto]].
    rewrite length_app, Hdots, length_firstn. lia.
Qed.

(** C4, the claim as stated fails: a content of 151 characters gets a
    preview of 153 characters. *)
Lemma get_preview_exceeds_150 :
  _get_preview (repeat 97%N 151) = repeat 97%N 150 ++ py "..."
  /\ ~ len (_get_preview (repeat 97%N 151)) <= 150.
Proof.
  split; [reflexivity|]. vm_compute. intros H. apply H. reflexivity.
Qed.

(** Two corpora that differ in the recorded size alone are ranked alike. *)
Lemma ranking_ignores_file_size :
  Forall2 same_text [Scenarios.loader_doc] [Scenarios.loader_doc_sized]
  /\ find_relevant_context (U := Latin1.db) [Scenarios.loader_doc]
       (py "How does the loader work?") 3
     = find_relevant_context (U := Latin1.db) [Scenarios.loader_doc_sized]
         (py "How does the loader work?") 3.
Proof.
  assert (H : Forall2 same_text [Scenarios.loader_doc]
                      [Scenarios.loader_doc_sized]).
  { constructor; [|constructor].
    unfold same_text. split; vm_compute; reflexivity. }
  split; [exact H|].
  exact (proj2 (proj2 (ranking_depends_on_text_and_origin
                         (U := Latin1.db) (py "How does the loader work?")
                         _ _ 3 H))).
Defined.

End SearchEngineFacts.

(** ** Whitespace: [strip], [split] and [join] *)

Module PyStrFacts.
Import PyStr SummarySpec.

Lemma lstrip_all_space s :
  Forall (fun c => is_space c = true) s -> lstrip s = [].
Proof.
  induction 1 as [|c s Hc _ IH]; [reflexivity|].
  cbn [lstrip]. now rewrite Hc.
Qed.

Lemma lstrip_keeps_nonspace s :
  Exists (fun c => is_space c = false) s ->
  Exists (fun c => is_space c = false) (lstrip s).
Proof.
  induction s as [|c s IH]; intros H; [exact H|].
  cbn [lstrip]. destruct (is_space c) eqn:Hc; [|exact H].
  apply IH. inversion H as [? ? Hc'|]; subst; [congruence|assumption].
Qed.

Lemma rev_keeps_nonspace (s : pystr) :
  Exists (fun c => is_space c = false) s ->
  Exists (fun c => is_space c = false) (rev s).
Proof.
  rewrite !List.Exists_exists. intros (c & Hin & Hc).
  exists c. split; [now apply in_rev in Hin|exact Hc].
Qed.

Lemma strip_keeps_nonspace s :
  Exists (fun c => is_space c = false) s ->
  Exists (fun c => is_space c = false) (strip s).
Proof.
  intros H. unfold strip, rstrip.
  now apply rev_keeps_nonspace, lstrip_keeps_nonspace, rev_keeps_nonspace,
    lstrip_keeps_nonspace.
Qed.

Lemma split_ws_nonempty cur s :
  cur <> [] \/ Exists (fun c => is_space c = false) s ->
  exists w ws, split_ws cur s = w :: ws /\ w <> [].
Proof.
  revert cur. induction s as [|c s IH]; intros cur H; cbn [split_ws].
  - destruct H as [H|H]; [|inversion H].
    destruct cur as [|a cur]; [congruence|].
    exists (rev (a :: cur)), []. split; [reflexivity|].
    cbn. intros Heq. now apply app_eq_nil in Heq as [_ ?].
  - destruct (is_space c) eqn:Hc.
    + destruct cur as [|a cur].
      * apply IH. right. destruct H as [H|H]; [congruence|].
        inversion H; subst; [congruence|assumption].
      * exists (rev (a :: cur)), (split_ws [] s). split; [reflexivity|].
        cbn. intros Heq. now apply app_eq_nil in Heq as [_ ?].
    + apply IH. left. discriminate.
Qed.

Lemma join_nonempty sep w ws : w <> [] -> join sep (w :: ws) <> [].
Proof.
  intros Hw. destruct ws as [|w' ws]; cbn [join]; [exact Hw|].
  intros Heq. now apply app_eq_nil in Heq as [? _].
Qed.

Lemma all_space_or_not s :
  Forall (fun c => is_space c = true) s
  \/ Exists (fun c => is_space c = false) s.
Proof.
  induction s as [|c s [IH|IH]].
  - left. constructor.
  - destruct (is_space c) eqn:Hc.
    + left. now constructor.
    + right. now constructor.
  - right. now constructor 2.
Qed.

(** The collapsed text is empty exactly for a text of whitespace. *)
Lemma collapse_empty_iff sep s :
  join sep (split (strip s)) = []
  <-> Forall (fun c => is_space c = true) s.
Proof.
  split.
  - intros Hempty.
    destruct (all_space_or_not s) as [Hall|Hex]; [exact Hall|exfalso].
    assert (Hns : Exists (fun c => is_space c = false) (strip s))
      by now apply strip_keeps_nonspace.
    destruct (split_ws_nonempty [] (strip s) (or_intror Hns))
      as (w & ws & Hsplit & Hw).
    unfold split in Hempty. rewrite Hsplit in Hempty.
    now apply (join_nonempty sep w ws).
  - intros Hall. unfold strip. rewrite (lstrip_all_space s Hall). reflexivity.
Qed.

(** What [.+?] leaves before [$] is the text, up to a final newline. *)
Lemma lazy_len_split s :
  s = firstn (lazy_len s) s \/ s = firstn (lazy_len s) s ++ [NL].
Proof.
  induction s as [|x s IH]; [now left|].
  cbn [lazy_len]. destruct (eol_ok (x :: s)) eqn:He.
  - right. destruct s as [|y s]; [|discriminate].
    cbn in He. apply N.eqb_eq in He. now subst.
  - cbn [firstn]. destruct IH as [IH|IH]; [left|right]; cbn; now rewrite <- IH.
Qed.

End PyStrFacts.

(** ** The matcher on literals and on a lazy [.+?] before [$] *)

Module RegexFacts.
Import PyStr Regex Reviewer SummarySpec.

Section Run.
Context {U : UnicodeDB}.
Variable fl : flags.

Lemma run_seqs_cons r rs pos s c k :
  run fl (seqs (r :: rs)) pos s c k
  = run fl r pos s c (fun pos' s' c' => run fl (seqs rs) pos' s' c' k).
Proof. destruct rs; reflexivity. Qed.

Lemma run_lit p pos s c k :
  run fl (lit p) pos s c k
  = match lit_prefix fl p s with
    | Some s' => k (pos + length p)%nat s' c
    | None => None
    end.
Proof.
  revert pos s. induction p as [|x p IH]; intros pos s.
  - cbn. now rewrite Nat.add_0_r.
  - unfold lit. cbn [map]. rewrite run_seqs_cons.
    destruct s as [|y s]; cbn [run step_char lit_prefix]; [reflexivity|].
    destruct (lit_matches fl x y); [|reflexivity].
    fold (lit p). rewrite IH. cbn [length].
    now rewrite Nat.add_succ_r.
Qed.

Lemma lit_prefix_spec p s rest :
  lit_prefix fl p s = Some rest
  <-> exists h, s = h ++ rest
                /\ Forall2 (fun a b => lit_matches fl a b = true) p h.
Proof.
  revert s. induction p as [|x p IH]; intros s; cbn [lit_prefix].
  - split.
    + intros [= ->]. exists []. split; [reflexivity|constructor].
    + intros (h & -> & Hh). inversion Hh. reflexivity.
  - destruct s as [|y s].
    + split; [discriminate|].
      intros (h & Hs & Hh). inversion Hh; subst. discriminate.
    + destruct (lit_matches fl x y) eqn:Hxy.
      * rewrite IH. split.
        -- intros (h & -> & Hh). exists (y :: h). split; [reflexivity|].
           now constructor.
        -- intros (h & Hs & Hh). inversion Hh as [|a b p' h' Hab Hh']; subst.
           injection Hs as -> ->. exists h'. now split.
      * split; [discriminate|].
        intros (h & Hs & Hh). inversion Hh as [|a b p' h' Hab Hh']; subst.
        injection Hs as -> ->. congruence.
Qed.

(** A lazy [.+?] under [re.DOTALL] goes on to the first place where the
    rest of the pattern, [$], matches. *)
Lemma repeat_lazy_any_eol n pos s c (K : cont) (G : nat -> captures -> result) :
  DOTALL fl = true ->
  (length s <= n)%nat ->
  (forall pos' s' c',
     K pos' s' c' = if eol_ok s' then Some (G pos' c') else None) ->
  repeat (step_char (any_matches fl)) false n pos s c K
  = Some (G (pos + lazy_len s)%nat c).
Proof.
  intros Hdot Hn HK. revert pos s Hn.
  induction n as [|n IH]; intros pos s Hn.
  - destruct s; [|cbn in Hn; lia].
    cbn. rewrite HK. cbn. now rewrite Nat.add_0_r.
  - cbn [repeat]. rewrite HK.
    destruct s as [|x s].
    + cbn. now rewrite Nat.add_0_r.
    + cbn [lazy_len]. destruct (eol_ok (x :: s)).
      * now rewrite Nat.add_0_r.
      * cbn [step_char]. unfold any_matches at 1. rewrite Hdot.
        assert (Hlt : (length s <? length (x :: s))%nat = true)
          by (apply Nat.ltb_lt; cbn; lia).
        rewrite Hlt. rewrite IH by (cbn in Hn; lia).
        now rewrite Nat.add_succ_r.
Qed.

Lemma run_body_to_eol pos s c :
  DOTALL fl = true ->
  run fl (Seq (Group 1 (Plus false Any)) Eol) pos s c
      (fun pos' _ c' => Some (pos', c'))
  = match s with
    | [] => None
    | x :: s1 =>
        Some (S pos + lazy_len s1,
              (1, x :: firstn (lazy_len s1) s1) :: c)%nat
    end.
Proof.
  intros Hdot. destruct s as [|x s1]; [reflexivity|].
  cbn [run]. unfold step_char at 1. unfold any_matches at 1. rewrite Hdot.
  rewrite (repeat_lazy_any_eol (length s1) (S pos) s1 c _
             (fun pos' c' => (pos', (1, firstn (pos' - pos) (x :: s1)) :: c')%nat)).
  - replace (S pos + lazy_len s1 - pos)%nat with (S (lazy_len s1)) by lia.
    reflexivity.
  - exact Hdot.
  - lia.
  - intros pos' s' c'. destruct s' as [|y [|z s'']]; cbn; try reflexivity.
Qed.

End Run.

End RegexFacts.

(** ** The response extractor *)

Module ReviewerFacts.
Import PyStr Regex Reviewer Scenarios SummarySpec RegexFacts PyStrFacts.

(** Literals with characters beyond ASCII denote their code points. *)
Example py_decodes_utf8 :
  py "crítico" = [99; 114; 237; 116; 105; 99; 111]%N
  /\ py "•" = [8226]%N
  /\ py "SUGESTÕES" = [83; 85; 71; 69; 83; 84; 213; 69; 83]%N.
Proof. repeat split; reflexivity. Qed.

(** What tests/capacities/test_code_review.py expects of the fixture:
    three issues, the first in category [Segurança] at line 11 with
    severity [high]; three suggestions, the first at line 11, the second
    without a line; three positives; a summary that is not empty. *)
Example sample_review_parsed :
  map (fun i => (issue_category i, issue_line_number i, severity i))
      (_parse_issues (U := Latin1.db) sample_review_response)
  = [ (py "Segurança", Some 11, py "high");
      (py "Documentação", Some 2, py "medium");
      (py "Validação", Some 10, py "medium") ]
  /\ map (fun g => (sugg_category g, sugg_line_number g))
         (_parse_suggestions (U := Latin1.db) sample_review_response)
     = [ (py "Segurança", Some 11);
         (py "Documentação", None);
         (py "Performance", None) ]
  /\ _parse_positives (U := Latin1.db) sample_review_response
     = [ py "Estrutura de classe bem organizada";
         py "Nomes de variáveis descritivos";
         py "Separação clara de responsabilidades" ]
  /\ _parse_summary (U := Latin1.db) sample_review_response
     = py "O código apresenta problemas críticos de segurança com o armazenamento de senhas em texto plano. Recomenda-se implementar hashing de senhas e adicionar validação de entrada.".
Proof. repeat split; vm_compute; reflexivity. Qed.

(** C1, the scenario as stated fails: the parsers look for the headers
    [PROBLEMAS ENCONTRADOS:] and [RESUMO:], so the text with the headers
    [PROBLEMS FOUND:] and [SUMMARY:] yields no issue and the placeholder
    summary. *)
Lemma english_headers_not_recognised :
  process_response (U := Latin1.db) english_text
  = {| success := true;
       data_review :=
         Some {| issues := [];
                 suggestions := [];
                 positives := [];
                 summary := default_summary |};
       errors := None |}.
Proof. vm_compute. reflexivity. Qed.

(** C1 (extraction scenario), on the headers of the code: the text
    ["PROBLEMAS ENCONTRADOS:\n- [Security] Plain-text password (linha 11)\n\nRESUMO:\nNeeds fixing."]
    yields exactly one issue, with category [Security], description
    [Plain-text password], line number 11 and severity [high], and the
    summary [Needs fixing.]. *)
Theorem portuguese_scenario_extracted :
  process_response (U := Latin1.db) portuguese_text
  = {| success := true;
       data_review :=
         Some {| issues :=
                   [ {| issue_category := py "Security";
                        issue_description := py "Plain-text password";
                        issue_line_number := Some 11;
                        severity := py "high" |} ];
                 suggestions := [];
                 positives := [];
                 summary := py "Needs fixing." |};
       errors := None |}.
Proof. vm_compute. reflexivity. Qed.

(** C5, the claim as stated fails: a summary section with a blank body
    gives the empty summary, not the placeholder. *)
Lemma blank_summary_is_empty :
  _parse_summary (U := Latin1.db) blank_summary_text = py "".
Proof. vm_compute. reflexivity. Qed.

(** C6, the claim as stated fails: "security", "critical" and
    "architecture" are on no watchlist of the code, so a description with
    the first two gets severity [medium] and a suggestion with the third
    gets impact [medium]. *)
Lemma english_watchwords_are_medium :
  map (fun i => (issue_description i, severity i))
      (_parse_issues (U := Latin1.db) watchlist_text)
  = [(py "Critical security flaw in login", py "medium")]
  /\ map (fun g => (sugg_description g, impact g))
         (_parse_suggestions (U := Latin1.db) watchlist_text)
     = [(py "Rethink the architecture of the module", py "medium")].
Proof. split; vm_compute; reflexivity. Qed.

Section Derivation.
Context {U : UnicodeDB}.

Lemma any_word_in_spec words description :
  any_word_in words description = true
  <-> exists word, In word words
                   /\ contains word (str_lower description) = true.
Proof. unfold any_word_in. apply existsb_exists. Qed.

(** What the two nested loops of a parser append satisfies [P] when each
    record built from a match does. *)
Lemma parsed_records_forall {A} (P : A -> Prop) (f : match_obj -> A)
    (found : regex -> list match_obj) (pats : list regex) (init : list A) :
  (forall mo, P (f mo)) ->
  Forall P init ->
  Forall P
    (fold_left
       (fun acc pattern =>
          fold_left (fun acc mo => acc ++ [f mo]) (found pattern) acc)
       pats init).
Proof.
  intros Hf. revert init.
  induction pats as [|pat pats IH]; intros init Hinit; cbn [fold_left];
    [exact Hinit|].
  apply IH. generalize (found pat) as ms. intros ms.
  revert init Hinit. induction ms as [|mo ms IHms]; intros init Hinit;
    cbn [fold_left]; [exact Hinit|].
  apply IHms. apply Forall_app. split; [exact Hinit|].
  constructor; [apply Hf|constructor].
Qed.

Lemma high_is_not_medium : py "high" <> py "medium".
Proof. discriminate. Qed.

(** C6 (severity derivation), on the watchlists of the code. The severity
    of every parsed issue is [high] exactly when its lowercased
    description contains one of "crítico", "segurança", "vulnerável",
    "eval", "sql", "senha", "password", "token", "secret", and [medium]
    otherwise; the impact of every parsed suggestion is [high] exactly
    when its lowercased description contains one of "performance",
    "segurança", "arquitetura", "crítico", and [medium] otherwise. No
    other value is produced. *)
Theorem severity_and_impact_derived (text : pystr) :
  Forall
    (fun i =>
       (severity i = py "high"
        <-> exists word, In word severity_words
                         /\ contains word (str_lower (issue_description i)) = true)
       /\ (severity i = py "high" \/ severity i = py "medium"))
    (_parse_issues text)
  /\ Forall
       (fun g =>
          (impact g = py "high"
           <-> exists word, In word impact_words
                            /\ contains word (str_lower (sugg_description g)) = true)
          /\ (impact g = py "high" \/ impact g = py "medium"))
       (_parse_suggestions text).
Proof.
  split.
  - unfold _parse_issues.
    destruct (search section_flags problems_re text) as [mo0|]; [|constructor].
    apply parsed_records_forall; [|constructor].
    intros mo. unfold issue_of_match. cbn [severity issue_description].
    rewrite <- any_word_in_spec.
    destruct (any_word_in severity_words _); split; auto; split; auto.
    + intros H. symmetry in H. now apply high_is_not_medium in H.
    + discriminate.
  - unfold _parse_suggestions.
    destruct (search section_flags suggestions_re text) as [mo0|]; [|constructor].
    apply parsed_records_forall; [|constructor].
    intros mo. unfold suggestion_of_match. cbn [impact sugg_description].
    rewrite <- any_word_in_spec.
    destruct (any_word_in impact_words _); split; auto; split; auto.
    + intros H. symmetry in H. now apply high_is_not_medium in H.
    + discriminate.
Qed.

End Derivation.

Section Summary.
Context {U : UnicodeDB}.

Lemma match_at_summary pos s :
  match_at section_flags summary_re pos s
  = match lit_prefix section_flags (py "RESUMO:") s with
    | Some (x :: s1) =>
        Some {| m_start := pos;
                m_end := S (pos + length (py "RESUMO:")) + lazy_len s1;
                m_groups := [(1%nat, x :: firstn (lazy_len s1) s1)] |}
    | _ => None
    end.
Proof.
  unfold match_at, summary_re. rewrite run_seqs_cons, run_lit.
  destruct (lit_prefix section_flags (py "RESUMO:") s) as [rest|];
    [|reflexivity].
  cbn [seqs]. rewrite run_body_to_eol by reflexivity.
  destruct rest; reflexivity.
Qed.

Lemma header_prefix hdr rest :
  is_summary_header hdr ->
  lit_prefix section_flags (py "RESUMO:") (hdr ++ rest) = Some rest.
Proof.
  intros Hhdr.
  apply (proj2 (lit_prefix_spec section_flags (py "RESUMO:") (hdr ++ rest) rest)).
  exists hdr. split; [reflexivity|]. exact Hhdr.
Qed.

(** Where no match starts at the first character, a section of the text is
    a section of its tail. *)
Lemma no_section_cons a s :
  (forall rest, lit_prefix section_flags (py "RESUMO:") (a :: s) = Some rest
                -> rest = []) ->
  no_summary_section s -> no_summary_section (a :: s).
Proof.
  intros Hhead Htail pre hdr rest Heq Hhdr.
  destruct pre as [|b pre].
  - apply Hhead. cbn [app] in Heq. rewrite Heq. now apply header_prefix.
  - injection Heq as -> Heq. now apply (Htail pre hdr rest).
Qed.

(** [re.search] with the pattern of the summary: either the text has no
    section, or the match starts at the first header that is followed by
    text and its group 1 runs to the first place where [$] matches. *)
Lemma search_summary_cases pos s :
  (search_from section_flags summary_re pos s = None
   /\ no_summary_section s)
  \/ exists pre hdr x s1 mo,
       s = pre ++ hdr ++ x :: s1
       /\ is_summary_header hdr
       /\ (forall pre' hdr' rest',
             s = pre' ++ hdr' ++ rest' -> is_summary_header hdr' ->
             rest' <> [] -> (length pre <= length pre')%nat)
       /\ search_from section_flags summary_re pos s = Some mo
       /\ group mo 1 = Some (x :: firstn (lazy_len s1) s1).
Proof.
  revert pos. induction s as [|a s IH]; intros pos.
  - left. split; [reflexivity|].
    intros pre hdr rest Heq _. symmetry in Heq.
    apply app_eq_nil in Heq as [_ Heq]. now apply app_eq_nil in Heq as [_ ?].
  - cbn [search_from]. rewrite match_at_summary.
    destruct (lit_prefix section_flags (py "RESUMO:") (a :: s))
      as [[|x s1]|] eqn:Hp.
    + destruct (IH (S pos))
        as [[Hnone Hno]|(pre & hdr & x & s1 & mo & Hs & Hhdr & Hmin & Hfound & Hg)].
      * left. split; [exact Hnone|].
        apply no_section_cons; [|exact Hno]. intros rest Hr. congruence.
      * right. exists (a :: pre), hdr, x, s1, mo.
        split; [cbn; now rewrite <- Hs|]. split; [exact Hhdr|].
        split; [|split; assumption].
        intros [|b pre'] hdr' rest' Heq Hhdr' Hrest.
        -- cbn [app] in Heq. rewrite Heq, (header_prefix hdr' rest' Hhdr') in Hp.
           congruence.
        -- injection Heq as -> Heq. cbn [length].
           apply le_n_S. now apply (Hmin pre' hdr' rest').
    + right.
      apply (proj1 (lit_prefix_spec _ _ _ _)) in Hp as (hdr & Hs & Hhdr).
      exists [], hdr, x, s1.
      eexists. split; [exact Hs|]. split; [exact Hhdr|].
      split; [intros; cbn; lia|]. split; reflexivity.
    + destruct (IH (S pos))
        as [[Hnone Hno]|(pre & hdr & x & s1 & mo & Hs & Hhdr & Hmin & Hfound & Hg)].
      * left. split; [exact Hnone|].
        apply no_section_cons; [|exact Hno]. intros rest Hr. congruence.
      * right. exists (a :: pre), hdr, x, s1, mo.
        split; [cbn; now rewrite <- Hs|]. split; [exact Hhdr|].
        split; [|split; assumption].
        intros [|b pre'] hdr' rest' Heq Hhdr' Hrest.
        -- cbn [app] in Heq. rewrite Heq, (header_prefix hdr' rest' Hhdr') in Hp.
           discriminate.
        -- injection Heq as -> Heq. cbn [length].
           apply le_n_S. now apply (Hmin pre' hdr' rest').
Qed.

(** C5 (summary default), as the code has it. Either no header
    [RESUMO:] of the text is followed by a character, and the summary is
    the placeholder; or the summary is the collapsed and trimmed body of
    the section that starts at the first header followed by text, where
    the body is all that follows the header, up to a final newline. That
    summary is the empty string exactly when the body is whitespace: the
    placeholder does not stand in for it. *)
Theorem parse_summary_cases (text : pystr) :
  (no_summary_section text /\ _parse_summary text = default_summary)
  \/ exists pre hdr rest body,
       text = pre ++ hdr ++ rest
       /\ is_summary_header hdr
       /\ (forall pre' hdr' rest',
             text = pre' ++ hdr' ++ rest' -> is_summary_header hdr' ->
             rest' <> [] -> (length pre <= length pre')%nat)
       /\ body <> []
       /\ (rest = body \/ rest = body ++ [NL])
       /\ _parse_summary text = join (py " ") (split (strip body))
       /\ (_parse_summary text = []
           <-> Forall (fun c => is_space c = true) body).
Proof.
  unfold _parse_summary, search.
  destruct (search_summary_cases 0 text)
    as [[Hnone Hno]|(pre & hdr & x & s1 & mo & Hs & Hhdr & Hmin & Hfound & Hg)].
  - left. rewrite Hnone. now split.
  - right. rewrite Hfound. unfold group_str. rewrite Hg.
    exists pre, hdr, (x :: s1), (x :: firstn (lazy_len s1) s1).
    split; [exact Hs|]. split; [exact Hhdr|]. split; [exact Hmin|].
    split; [discriminate|]. split.
    { destruct (lazy_len_split s1) as [H|H]; [left|right]; cbn;
        now rewrite <- H. }
    split; [reflexivity|]. apply collapse_empty_iff.
Qed.

End Summary.

End ReviewerFacts.

(** ** The pipeline controller *)

Module EngineFacts.
Import PyStr Engine StubCollaborators.

Section Controller.
Context {C : Collaborators}.

(** [ask] on an engine that is not indexed: the fixed error result, with
    the engine and the record of calls as they were. *)
Lemma ask_when_not_indexed question include_sources retriever_kwargs m :
  is_indexed (self m) = false ->
  ask question include_sources retriever_kwargs m
  = (Returned (not_indexed_result question),
     {| self := self m;
        world := snd (time_time (world m));
        calls := calls m |}).
Proof.
  intros Hni. unfold ask, bind, now, get_self, ret.
  destruct (time_time (world m)) as [t w]. cbn [self snd].
  now rewrite Hni.
Qed.

(** [clear_index] when [delete_collection] is absent or returns. *)
Lemma clear_index_done m :
  has_delete_collection = false
  \/ fst (delete_collection (world m)) = Returned tt ->
  is_indexed (self (snd (clear_index m))) = false
  /\ retriever (self (snd (clear_index m))) = None
  /\ llm_calls (snd (clear_index m)) = llm_calls m.
Proof.
  intros Hdel.
  unfold clear_index, try_except, bind, external, set_retriever,
    set_is_indexed, set_self, ret, llm_calls.
  destruct has_delete_collection.
  - destruct Hdel as [Hdel|Hdel]; [discriminate|].
    destruct (delete_collection (world m)) as [[[]|e] w]; cbn in Hdel;
      [|discriminate].
    cbn. rewrite List.filter_app. cbn. now rewrite app_nil_r.
  - cbn. auto.
Qed.

(** [clear_index] when [delete_collection] raises: the [except] branch
    leaves the engine as it was. *)
Lemma clear_index_failed m e :
  has_delete_collection = true ->
  fst (delete_collection (world m)) = Raised e ->
  fst (clear_index m) = Returned tt /\ self (snd (clear_index m)) = self m.
Proof.
  intros Hhas Hdel.
  unfold clear_index, try_except, bind, external, ret.
  rewrite Hhas.
  destruct (delete_collection (world m)) as [[u|e'] w]; cbn in Hdel;
    [discriminate|].
  cbn. auto.
Qed.

(** C7 (not-indexed query), as the code has it. On an engine whose
    [is_indexed] is false, [ask] returns the error result (status [error],
    the answer that tells to run [setup_pipeline] first) for every
    question, raises nothing, leaves the engine as it was and calls no
    collaborator, so the generator is not asked. A freshly constructed
    engine is in that state, and so is one after a [clear_index] whose
    [delete_collection] is absent or returns. *)
Theorem ask_not_indexed
    (question : pystr) (include_sources : bool)
    (retriever_kwargs : option (gmap string pyval)) :
  (forall m : machine,
     is_indexed (self m) = false ->
     fst (ask question include_sources retriever_kwargs m)
     = Returned (not_indexed_result question)
     /\ ans_status (not_indexed_result question) = py "error"
     /\ self (snd (ask question include_sources retriever_kwargs m)) = self m
     /\ calls (snd (ask question include_sources retriever_kwargs m)) = calls m)
  /\ (forall cfg w,
        fst (ask question include_sources retriever_kwargs (fresh cfg w))
        = Returned (not_indexed_result question)
        /\ llm_calls (snd (ask question include_sources retriever_kwargs
                                (fresh cfg w))) = [])
  /\ (forall m : machine,
        has_delete_collection = false
        \/ fst (delete_collection (world m)) = Returned tt ->
        fst (ask question include_sources retriever_kwargs (snd (clear_index m)))
        = Returned (not_indexed_result question)
        /\ llm_calls (snd (ask question include_sources retriever_kwargs
                                (snd (clear_index m))))
           = llm_calls m).
Proof.
  split; [|split].
  - intros m Hni. rewrite (ask_when_not_indexed _ _ _ m Hni). cbn. auto.
  - intros cfg w.
    rewrite (ask_when_not_indexed _ _ _ (fresh cfg w) eq_refl). cbn. auto.
  - intros m Hdel. destruct (clear_index_done m Hdel) as (Hni & _ & Hcalls).
    rewrite (ask_when_not_indexed _ _ _ _ Hni). cbn [fst snd].
    split; [reflexivity|]. exact Hcalls.
Qed.

(** C7, the claim as stated fails after a [clear_index] whose
    [delete_collection] raises: the [except] branch of [clear_index]
    returns, the engine is still indexed, and the next [ask] asks the
    generator and returns status [success]. *)
Lemma ask_after_failed_clear_index :
  fst (clear_index (C := EngineSpec.locked_stub) EngineSpec.locked_indexed)
  = Returned tt
  /\ is_indexed
       (self (snd (clear_index (C := EngineSpec.locked_stub)
                     EngineSpec.locked_indexed)))
     = true
  /\ (exists res,
        fst (ask (C := EngineSpec.locked_stub) (py "How does the loader work?")
               true None
               (snd (clear_index (C := EngineSpec.locked_stub)
                       EngineSpec.locked_indexed)))
        = Returned res
        /\ ans_status res = py "success"
        /\ answer res = py "ok")
  /\ map is_llm_call
         (calls (snd (ask (C := EngineSpec.locked_stub)
                        (py "How does the loader work?") true None
                        (snd (clear_index (C := EngineSpec.locked_stub)
                                EngineSpec.locked_indexed)))))
     = [false; false; true].
Proof.
  split; [vm_compute; reflexivity|].
  split; [vm_compute; reflexivity|].
  split; [|vm_compute; reflexivity].
  eexists. split; [vm_compute; reflexivity|].
  split; vm_compute; reflexivity.
Qed.

(** C8 (empty load). When the loader returns no document,
    [setup_pipeline] returns the failure result (status [error], no
    document loaded or indexed, the message of the [ValueError]) and the
    engine is as it was: [is_indexed], [retriever] and the configuration
    are unchanged, and the loader is the only collaborator called. *)
Theorem setup_pipeline_empty_load (path glob : pystr) (m : machine) :
  fst (loader_load path glob (snd (time_time (world m)))) = Returned [] ->
  exists stats,
    fst (setup_pipeline path glob m) = Returned stats
    /\ stats_status stats = py "error"
    /\ documents_loaded stats = 0
    /\ documents_indexed stats = 0
    /\ stats_error stats
       = Some (py "Erro ao configurar pipeline: Nenhum documento foi carregado")
    /\ self (snd (setup_pipeline path glob m)) = self m
    /\ calls (snd (setup_pipeline path glob m)) = calls m ++ [CallLoad path glob].
Proof.
  intros Hload.
  unfold setup_pipeline, bind, now, try_except, external, raise, ret.
  destruct (time_time (world m)) as [t0 w0]. cbn [world self calls snd] in *.
  destruct (loader_load path glob w0) as [r w1]. cbn [fst] in Hload. subst r.
  cbn [world self calls].
  destruct (time_time w1) as [t1 w2].
  eexists. cbn [fst snd self calls]. split; [reflexivity|].
  cbn [stats_status documents_loaded documents_indexed stats_error].
  split; [reflexivity|]. split; [reflexivity|]. split; [reflexivity|].
  split; [vm_compute; reflexivity|]. split; reflexivity.
Qed.

(** C10 (reconfiguration frame). [update_retriever_config] gives every
    supplied key its new value and leaves every other key of the
    configuration as it was; [is_indexed] never changes; on an engine that
    is not indexed the call returns, the retriever stays what it was and
    no collaborator is called. *)
Theorem update_retriever_config_frame
    (kwargs : gmap string pyval) (m : machine) :
  let m' := snd (update_retriever_config kwargs m) in
  (forall k v, kwargs !! k = Some v ->
               retriever_config (self m') !! k = Some v)
  /\ (forall k, kwargs !! k = None ->
                retriever_config (self m') !! k = retriever_config (self m) !! k)
  /\ is_indexed (self m') = is_indexed (self m)
  /\ (is_indexed (self m) = false ->
      fst (update_retriever_config kwargs m) = Returned tt
      /\ retriever (self m') = retriever (self m)
      /\ world m' = world m
      /\ calls m' = calls m).
Proof.
  cbv zeta.
  unfold update_retriever_config, bind, get_self, set_retriever_config,
    set_retriever, set_self, external, ret.
  cbn [self world calls is_indexed retriever_config retriever].
  destruct (is_indexed (self m)) eqn:Hidx.
  - cbn [self world calls is_indexed retriever_config retriever].
    destruct (get_retriever (kwargs ∪ retriever_config (self m)) (world m))
      as [[r|e] w]; cbn [fst snd self world calls is_indexed retriever_config retriever].
    + split; [|split; [|split; [reflexivity|discriminate]]].
      * intros k v Hk. now apply lookup_union_Some_l.
      * intros k Hk. now apply lookup_union_r.
    + split; [|split; [|split; [reflexivity|discriminate]]].
      * intros k v Hk. now apply lookup_union_Some_l.
      * intros k Hk. now apply lookup_union_r.
  - cbn [fst snd self world calls is_indexed retriever_config retriever].
    split; [|split; [|split; [reflexivity|intros _; repeat split; reflexivity]]].
    + intros k v Hk. now apply lookup_union_Some_l.
    + intros k Hk. now apply lookup_union_r.
Qed.

End Controller.

(** The stand-in loader finds nothing under [docs]; the engine stays
    fresh. *)
Lemma setup_pipeline_empty_load_stub :
  fst (loader_load (Collaborators := stub) (py "docs") (py "**/*.py")
         (snd (time_time (world stub_machine))))
  = Returned []
  /\ exists stats,
       fst (setup_pipeline (py "docs") (py "**/*.py") stub_machine)
       = Returned stats
       /\ stats_status stats = py "error"
       /\ documents_loaded stats = 0
       /\ documents_indexed stats = 0
       /\ stats_error stats
          = Some (py "Erro ao configurar pipeline: Nenhum documento foi carregado")
       /\ self (snd (setup_pipeline (py "docs") (py "**/*.py") stub_machine))
          = self stub_machine
       /\ calls (snd (setup_pipeline (py "docs") (py "**/*.py") stub_machine))
          = calls stub_machine ++ [CallLoad (py "docs") (py "**/*.py")].
Proof.
  split; [reflexivity|].
  apply (setup_pipeline_empty_load (C := stub)). reflexivity.
Defined.

End EngineFacts.

(** ** More on the search engine: bounds, ranks, statistics, keywords *)

Module SearchEngineToolsFacts.
Import PyStr SearchEngine RankingSpec SearchEngineTools SearchEngineFacts.

Section Output.
Context {U : UnicodeDB}.

Lemma length_slice_to {A} (l : list A) stop :
  Z.of_nat (length (slice_to l stop)) = slice_bound (Z.of_nat (length l)) stop.
Proof.
  unfold slice_to, slice_bound. rewrite length_firstn.
  destruct (stop <? 0) eqn:Hs; [apply Z.ltb_lt in Hs|apply Z.ltb_ge in Hs]; lia.
Qed.

Lemma length_enumerate {A} (l : list A) start :
  length (enumerate l start) = length l.
Proof.
  revert start. induction l as [|x l IH]; intros start; [reflexivity|].
  cbn [enumerate length]. now rewrite IH.
Qed.

Lemma length_filter_le {A} (f : A -> bool) (l : list A) :
  (length (List.filter f l) <= length l)%nat.
Proof.
  induction l as [|x l IH]; [reflexivity|].
  cbn [List.filter]. destruct (f x); cbn [length]; lia.
Qed.

Lemma length_sort_desc {A} (key : A -> Z) (l : list A) :
  length (sort_desc key l) = length l.
Proof. apply Permutation_length, sort_desc_perm. Qed.

(** The result of [find_relevant_context] in terms of the entries kept. *)
Lemma find_relevant_context_kept question documents max_docs :
  find_relevant_context documents question max_docs
  = (join [NL; NL]
          (map part_of
               (enumerate
                  (List.filter keeps
                     (slice_to (doc_scores question documents) max_docs)) 1)),
     map descriptor_of
         (enumerate
            (List.filter keeps
               (slice_to (doc_scores question documents) max_docs)) 1)).
Proof.
  destruct documents as [|d documents].
  - cbn [find_relevant_context doc_scores score_documents map sort_desc].
    unfold slice_to. rewrite firstn_nil. reflexivity.
  - unfold find_relevant_context.
    rewrite collect_spec, filter_enumerate_sorted; [reflexivity|].
    unfold slice_to. apply firstn_strongly_sorted.
    apply (sort_desc_sorted scored_score).
Qed.

Lemma nth_error_enumerate {A} (l : list A) start i z x :
  nth_error (enumerate l start) i = Some (z, x) -> z = start + Z.of_nat i.
Proof.
  revert start i. induction l as [|y l IH]; intros start [|i] H;
    cbn in H; try discriminate.
  - injection H as <- _. lia.
  - apply IH in H. lia.
Qed.

Lemma filter_strongly_sorted {A} (R : A -> A -> Prop) (f : A -> bool) l :
  StronglySorted R l -> StronglySorted R (List.filter f l).
Proof.
  induction 1 as [|x l Hs IH Hall]; [constructor|].
  cbn [List.filter]. destruct (f x); [|exact IH].
  constructor; [exact IH|].
  apply List.Forall_forall. intros y Hy. apply filter_In in Hy as [Hy _].
  rewrite List.Forall_forall in Hall. now apply Hall.
Qed.

Lemma map_strongly_sorted {A} (key : A -> Z) l :
  StronglySorted (ge_key key) l -> StronglySorted Z.ge (map key l).
Proof.
  induction 1 as [|x l Hs IH Hall]; [constructor|].
  cbn [map]. constructor; [exact IH|].
  apply List.Forall_map. exact Hall.
Qed.

(** The number of sources is bounded by [max_docs] and by the size of the
    corpus: it is at most what the slice [doc_scores[:max_docs]] can hold,
    which for a negative [max_docs] is the corpus but its last
    [-max_docs] ranked documents. *)
Theorem sources_bounded (question : pystr) (documents : list Document)
    (max_docs : Z) :
  Z.of_nat (length (snd (find_relevant_context documents question max_docs)))
  <= slice_bound (Z.of_nat (length documents)) max_docs
  /\ slice_bound (Z.of_nat (length documents)) max_docs
     <= Z.of_nat (length documents)
  /\ (0 <= max_docs ->
      Z.of_nat (length (snd (find_relevant_context documents question max_docs)))
      <= max_docs).
Proof.
  rewrite find_relevant_context_kept. cbn [snd].
  rewrite length_map, length_enumerate.
  pose proof (length_filter_le keeps
                (slice_to (doc_scores question documents) max_docs)) as Hle.
  pose proof (length_slice_to (doc_scores question documents) max_docs) as Hs.
  unfold doc_scores in Hs at 2. rewrite length_sort_desc in Hs.
  unfold score_documents in Hs. rewrite length_map in Hs.
  split; [lia|]. unfold slice_bound in *.
  destruct (max_docs <? 0) eqn:Hneg;
    [apply Z.ltb_lt in Hneg|apply Z.ltb_ge in Hneg]; split; lia.
Qed.

(** The sources are numbered in order, the first with rank 1, without
    gaps, and they stand in descending order of score. *)
Theorem sources_ranked (question : pystr) (documents : list Document)
    (max_docs : Z) :
  (forall i s,
     nth_error (snd (find_relevant_context documents question max_docs)) i
     = Some s ->
     src_index s = Z.of_nat i + 1)
  /\ StronglySorted Z.ge
       (map src_score (snd (find_relevant_context documents question max_docs))).
Proof.
  rewrite find_relevant_context_kept. cbn [snd]. split.
  - intros i s Hi. rewrite nth_error_map in Hi.
    destruct (nth_error _ i) as [[z x]|] eqn:Hn; [|discriminate].
    injection Hi as <-. apply nth_error_enumerate in Hn.
    unfold descriptor_of, source_of. cbn [fst src_index]. lia.
  - rewrite map_map.
    replace (map (fun p => src_score (descriptor_of p))
                 (enumerate (List.filter keeps
                    (slice_to (doc_scores question documents) max_docs)) 1))
      with (map scored_score
                (map snd (enumerate (List.filter keeps
                    (slice_to (doc_scores question documents) max_docs)) 1)))
      by (rewrite map_map; reflexivity).
    rewrite enumerate_snd. apply map_strongly_sorted.
    apply filter_strongly_sorted. unfold slice_to.
    apply firstn_strongly_sorted. apply (sort_desc_sorted scored_score).
Qed.

Lemma fold_left_grows {B} (f : Z -> B -> Z) (l : list B) (a : Z) :
  (forall acc b, acc <= f acc b) -> a <= fold_left f l a.
Proof.
  intros Hf. revert a. induction l as [|b l IH]; intros a; cbn [fold_left];
    [lia|].
  specialize (IH (f a b)). specialize (Hf a b). lia.
Qed.

Lemma fold_left_reaches {B} (f : Z -> B -> Z) (l : list B) (a : Z) (x : B)
    (gain : Z) :
  (forall acc b, acc <= f acc b) ->
  (forall acc, acc + gain <= f acc x) ->
  In x l -> a + gain <= fold_left f l a.
Proof.
  intros Hf Hx. revert a. induction l as [|b l IH]; intros a Hin;
    [destruct Hin|].
  cbn [fold_left]. destruct Hin as [->|Hin].
  - pose proof (fold_left_grows f l (f a x) Hf). specialize (Hx a). lia.
  - specialize (IH (f a b) Hin). specialize (Hf a b). lia.
Qed.

(** What a score rewards: a document whose origin names a component gets
    at least 15 when the question holds one of the keywords of that
    component, and every word of the question longer than two characters
    brings 2 for each of its occurrences in the lowercased content. *)
Theorem score_rewards_matches (question_lower : pystr) (doc : Document) :
  (forall component keywords,
     In (component, keywords) keyword_mapping ->
     existsb (fun kw => contains kw question_lower) keywords = true ->
     contains component (str_lower (metadata_get_source doc (py ""))) = true ->
     15 <= _calculate_relevance_score question_lower doc)
  /\ (forall word,
        In word (split question_lower) ->
        2 < len word ->
        2 * count (str_lower (page_content doc)) word
        <= _calculate_relevance_score question_lower doc).
Proof.
  unfold _calculate_relevance_score.
  set (content_lower := str_lower (page_content doc)).
  set (file_path := str_lower (metadata_get_source doc (py ""))).
  set (words :=
         fold_left
           (fun score word =>
              if len word >? 2
              then let word_count := count content_lower word in
                   score + word_count * 2
              else score) (split question_lower) 0).
  set (topics :=
         fold_left
           (fun score '(component, keywords) =>
              if existsb (fun kw => contains kw question_lower) keywords
              then if contains component file_path then score + 15 else score
              else score) keyword_mapping words).
  assert (Hwords_step : forall acc word,
            acc <= (if len word >? 2
                    then let word_count := count content_lower word in
                         acc + word_count * 2
                    else acc)).
  { intros acc word. destruct (len word >? 2); [|lia].
    pose proof (count_nonneg content_lower word). cbv zeta. lia. }
  assert (Htopics_step : forall acc (b : pystr * list pystr),
            acc <= (let '(component, keywords) := b in
                    if existsb (fun kw => contains kw question_lower) keywords
                    then if contains component file_path
                         then acc + 15 else acc
                    else acc)).
  { intros acc [component keywords].
    destruct (existsb _ keywords); [|lia].
    destruct (contains component file_path); lia. }
  assert (Hwords : 0 <= words) by (apply fold_left_grows; exact Hwords_step).
  assert (Htopics : words <= topics)
    by (apply fold_left_grows; exact Htopics_step).
  assert (Hsize : 0 <= len content_lower / 1000)
    by (apply Z.div_pos; unfold len; lia).
  assert (Hmarks : topics + len content_lower / 1000
                   <= fold_left
                        (fun score pattern => score + count content_lower pattern)
                        important_patterns
                        (topics + len content_lower / 1000)).
  { apply fold_left_grows. intros acc p.
    pose proof (count_nonneg content_lower p). lia. }
  split.
  - intros component keywords Hin Hkw Hpath.
    assert (words + 15 <= topics); [|lia].
    apply (fold_left_reaches _ _ _ (component, keywords));
      [exact Htopics_step| |exact Hin].
    intros acc. rewrite Hkw, Hpath. lia.
  - intros word Hin Hlen.
    assert (0 + 2 * count content_lower word <= words); [|lia].
    apply (fold_left_reaches _ _ _ word); [exact Hwords_step| |exact Hin].
    intros acc. assert (Hgt : (len word >? 2) = true)
      by (rewrite Z.gtb_ltb; apply Z.ltb_lt; lia).
    rewrite Hgt. cbv zeta. lia.
Qed.

End Output.

Section Statistics.

Lemma fold_append_map {A B} (f : A -> B) (l : list A) (acc : list B) :
  fold_left (fun acc x => acc ++ [f x]) l acc = acc ++ map f l.
Proof.
  revert acc. induction l as [|x l IH]; intros acc; cbn [fold_left map].
  - now rewrite app_nil_r.
  - rewrite IH, <- app_assoc. reflexivity.
Qed.

Lemma fold_add_shift (l : list Z) (a : Z) :
  fold_left Z.add l a = a + fold_left Z.add l 0.
Proof.
  revert a. induction l as [|x l IH]; intros a; cbn [fold_left]; [lia|].
  rewrite (IH (a + x)), (IH (0 + x)). lia.
Qed.

Lemma py_sum_cons x l : py_sum (x :: l) = x + py_sum l.
Proof. unfold py_sum. cbn [fold_left]. rewrite fold_add_shift. lia. Qed.

Lemma py_sum_lower_bound (b : Z) (l : list Z) :
  Forall (fun x => b <= x) l -> b * Z.of_nat (length l) <= py_sum l.
Proof.
  induction 1 as [|x l Hx _ IH]; [unfold py_sum; cbn; lia|].
  rewrite py_sum_cons. cbn [length]. lia.
Qed.

Lemma split_sep_nonempty sep cur s : (1 <= length (split_sep sep cur s))%nat.
Proof.
  revert cur. induction s as [|c s IH]; intros cur; cbn [split_sep];
    [cbn; lia|].
  destruct (code_eqb c sep); [cbn [length]; lia|apply IH].
Qed.

Lemma line_count_pos doc : 1 <= line_count doc.
Proof.
  unfold line_count, split_on.
  pose proof (split_sep_nonempty NL [] (page_content doc)). lia.
Qed.

(** The statistics are consistent: [total_docs] counts the entries of
    [files], which are those of the corpus in order; [total_lines] and
    [total_chars] are the sums of the per-file values; every file has at
    least one line, so [total_lines] is at least [total_docs]; the early
    return for the empty corpus agrees with these equations. *)
Theorem get_statistics_totals (documents : list Document) :
  let st := get_statistics documents in
  files st = map file_entry documents
  /\ total_docs st = Z.of_nat (length (files st))
  /\ total_lines st = py_sum (map fs_lines (files st))
  /\ total_chars st = py_sum (map fs_chars (files st))
  /\ Forall (fun f => 1 <= fs_lines f /\ 0 <= fs_chars f) (files st)
  /\ total_docs st <= total_lines st
  /\ 0 <= total_chars st.
Proof.
  cbv zeta.
  assert (Hfiles : files (get_statistics documents) = map file_entry documents).
  { destruct documents as [|d l]; [reflexivity|].
    unfold get_statistics. cbn [files]. now rewrite fold_append_map. }
  assert (Hdocs : total_docs (get_statistics documents)
                  = Z.of_nat (length documents))
    by (destruct documents; reflexivity).
  assert (Hlines : total_lines (get_statistics documents)
                   = py_sum (map line_count documents))
    by (destruct documents; reflexivity).
  assert (Hchars : total_chars (get_statistics documents)
                   = py_sum (map (fun doc => len (page_content doc)) documents))
    by (destruct documents; reflexivity).
  rewrite Hfiles, Hdocs, Hlines, Hchars, length_map, !map_map.
  cbn [fs_lines fs_chars file_entry].
  split; [reflexivity|]. split; [reflexivity|]. split; [reflexivity|].
  split; [reflexivity|]. split; [|split].
  - apply List.Forall_map. apply List.Forall_forall. intros d _.
    cbn [fs_lines fs_chars file_entry]. split; [apply line_count_pos|].
    unfold len. lia.
  - pose proof (py_sum_lower_bound 1 (map line_count documents)) as H.
    rewrite length_map in H. 
    assert (Hall : Forall (fun x => 1 <= x) (map line_count documents)).
    { apply List.Forall_map. apply List.Forall_forall. intros d _.
      apply line_count_pos. }
    specialize (H Hall). lia.
  - pose proof (py_sum_lower_bound 0
                  (map (fun doc => len (page_content doc)) documents)) as H.
    assert (Hall : Forall (fun x => 0 <= x)
                     (map (fun doc => len (page_content doc)) documents)).
    { apply List.Forall_map. apply List.Forall_forall. intros d _.
      unfold len. lia. }
    specialize (H Hall). lia.
Qed.

End Statistics.

Section KeywordSearch.
Context {U : UnicodeDB}.

Lemma keyword_loop_ok keywords content_lower (l : list pystr) r :
  (forall kw, In kw l -> In kw keywords) ->
  keywords_ok keywords content_lower r ->
  keywords_ok keywords content_lower
    (fold_left (keyword_step content_lower) l r).
Proof.
  revert r. induction l as [|kw l IH]; intros r Hsub Hr; [exact Hr|].
  cbn [fold_left]. apply IH; [intros k Hk; apply Hsub; now right|].
  destruct r as [matches mk]. destruct Hr as (Hm & Hne & Hall).
  cbn [fst snd] in *. unfold keyword_step.
  destruct (contains (str_lower kw) content_lower) eqn:Hc;
    [|repeat split; assumption].
  pose proof (count_nonneg content_lower (str_lower kw)) as Hcount.
  repeat split; cbn [fst snd].
  - lia.
  - intros _ Heq. now apply app_eq_nil in Heq as [_ ?].
  - apply Forall_app. split; [exact Hall|].
    constructor; [|constructor]. split; [apply Hsub; now left|exact Hc].
Qed.

Lemma count_keywords_ok keywords content_lower :
  keywords_ok keywords content_lower (count_keywords keywords content_lower).
Proof.
  unfold count_keywords. apply keyword_loop_ok; [auto|].
  repeat split; cbn; [lia|lia|constructor].
Qed.

Lemma keyword_hits_ok keywords (l : list Document) (acc : list keyword_hit) :
  Forall (hit_ok keywords) acc ->
  Forall (hit_ok keywords) (fold_left (hit_step keywords) l acc)
  /\ (length (fold_left (hit_step keywords) l acc)
      <= length acc + length l)%nat.
Proof.
  revert acc. induction l as [|d l IH]; intros acc Hacc;
    cbn [fold_left length]; [split; [exact Hacc|lia]|].
  unfold hit_step at 2 4.
  pose proof (count_keywords_ok keywords (str_lower (page_content d))) as Hk.
  destruct (count_keywords keywords (str_lower (page_content d)))
    as [matches mk].
  destruct Hk as (Hm & Hne & Hall). cbn [fst snd] in *.
  destruct (matches >? 0) eqn:Hpos.
  - rewrite Z.gtb_ltb in Hpos. apply Z.ltb_lt in Hpos.
    destruct (IH (acc ++ [ {| kh_file := metadata_get_source d (py "N/A");
                             kh_matches := matches;
                             kh_matched_keywords := mk;
                             kh_lines := line_count d;
                             kh_preview := _get_preview (page_content d) |} ]))
      as [IH1 IH2].
    + apply Forall_app. split; [exact Hacc|]. constructor; [|constructor].
      unfold hit_ok. cbn [kh_matches kh_matched_keywords kh_lines].
      split; [exact Hpos|]. split; [now apply Hne|]. split.
      * eapply List.Forall_impl; [|exact Hall]. now intros kw [? _].
      * apply line_count_pos.
    + split; [exact IH1|]. rewrite length_app in IH2. cbn [length] in IH2. lia.
  - destruct (IH acc Hacc) as [IH1 IH2]. split; [exact IH1|lia].
Qed.

(** [search_by_keywords] returns only documents in which a keyword
    occurs: every hit has a positive number of matches and names at least
    one matched keyword, all of them among the keywords asked for; the
    hits stand in descending order of matches; there are at most
    [max_results] of them (for a negative [max_results], the hits but the
    last [-max_results]) and never more than documents. *)
Theorem search_by_keywords_hits (documents : list Document)
    (keywords : list pystr) (max_results : Z) :
  let hits := search_by_keywords documents keywords max_results in
  Forall (hit_ok keywords) hits
  /\ StronglySorted Z.ge (map kh_matches hits)
  /\ Z.of_nat (length hits) <= Z.of_nat (length documents)
  /\ (0 <= max_results -> Z.of_nat (length hits) <= max_results).
Proof.
  cbv zeta. unfold search_by_keywords.
  destruct (keyword_hits_ok keywords documents []) as [Hok Hlen];
    [constructor|].
  fold (keyword_hits documents keywords) in Hok, Hlen. cbn [length] in Hlen.
  split; [|split; [|split]].
  - unfold slice_to. apply Forall_take.
    apply (Permutation_Forall (Permutation_sym (sort_desc_perm kh_matches _))).
    exact Hok.
  - apply map_strongly_sorted. unfold slice_to.
    apply firstn_strongly_sorted. apply sort_desc_sorted.
  - rewrite length_slice_to, length_sort_desc. unfold slice_bound.
    destruct (max_results <? 0) eqn:Hneg;
      [apply Z.ltb_lt in Hneg|apply Z.ltb_ge in Hneg]; lia.
  - intros Hmax. rewrite length_slice_to, length_sort_desc. unfold slice_bound.
    destruct (max_results <? 0) eqn:Hneg;
      [apply Z.ltb_lt in Hneg|apply Z.ltb_ge in Hneg]; lia.
Qed.

Lemma contains_count_scan sub s :
  sub <> [] -> contains sub s = true -> 1 <= count_scan sub s 0.
Proof.
  intros Hsub. induction s as [|c s IH]; intros Hc.
  - destruct sub; [congruence|discriminate].
  - cbn [contains] in Hc. cbn [count_scan].
    destruct (startswith sub (c :: s)).
    + pose proof (count_scan_nonneg sub s (length sub - 1)). lia.
    + cbn [orb] in Hc. now apply IH.
Qed.

(** An occurrence is counted at least once. *)
Lemma contains_count sub s : contains sub s = true -> 1 <= count s sub.
Proof.
  intros Hc. unfold count. destruct sub as [|x sub]; [unfold len; lia|].
  apply contains_count_scan; [discriminate|exact Hc].
Qed.

Lemma keyword_loop_grows content_lower (l : list pystr) r kw :
  1 <= fst r -> In kw (snd r) ->
  1 <= fst (fold_left (keyword_step content_lower) l r)
  /\ In kw (snd (fold_left (keyword_step content_lower) l r)).
Proof.
  revert r. induction l as [|k l IH]; intros r Hm Hin; [now split|].
  cbn [fold_left]. apply IH; destruct r as [matches mk]; cbn [fst snd] in *;
    unfold keyword_step; destruct (contains (str_lower k) content_lower);
    cbn [fst snd]; try assumption.
  - pose proof (count_nonneg content_lower (str_lower k)). lia.
  - apply in_or_app. now left.
Qed.

Lemma keyword_loop_finds content_lower (l : list pystr) r kw :
  0 <= fst r -> In kw l ->
  contains (str_lower kw) content_lower = true ->
  1 <= fst (fold_left (keyword_step content_lower) l r)
  /\ In kw (snd (fold_left (keyword_step content_lower) l r)).
Proof.
  revert r. induction l as [|k l IH]; intros r Hm Hin Hc; [destruct Hin|].
  cbn [fold_left]. destruct Hin as [->|Hin].
  - apply keyword_loop_grows; destruct r as [matches mk]; cbn [fst snd] in *;
      unfold keyword_step; rewrite Hc; cbn [fst snd].
    + pose proof (contains_count _ _ Hc). lia.
    + apply in_or_app. right. now left.
  - apply IH; [|exact Hin|exact Hc].
    destruct r as [matches mk]; cbn [fst snd] in *. unfold keyword_step.
    destruct (contains (str_lower k) content_lower); cbn [fst snd]; [|exact Hm].
    pose proof (count_nonneg content_lower (str_lower k)). lia.
Qed.

Lemma hit_loop_keeps keywords (l : list Document) acc h :
  In h acc -> In h (fold_left (hit_step keywords) l acc).
Proof.
  revert acc. induction l as [|d l IH]; intros acc Hin; [exact Hin|].
  cbn [fold_left]. apply IH. unfold hit_step.
  destruct (count_keywords keywords (str_lower (page_content d))) as [m mk].
  destruct (m >? 0); [apply in_or_app; now left|exact Hin].
Qed.

Lemma hit_loop_finds keywords (l : list Document) acc d kw :
  In d l -> In kw keywords ->
  contains (str_lower kw) (str_lower (page_content d)) = true ->
  exists h, In h (fold_left (hit_step keywords) l acc)
            /\ kh_file h = metadata_get_source d (py "N/A")
            /\ In kw (kh_matched_keywords h).
Proof.
  revert acc. induction l as [|d' l IH]; intros acc Hd Hkw Hc; [destruct Hd|].
  cbn [fold_left]. destruct Hd as [->|Hd]; [|now apply IH].
  destruct (keyword_loop_finds (str_lower (page_content d)) keywords (0, []) kw)
    as [Hm Hin]; [cbn; lia|exact Hkw|exact Hc|].
  fold (count_keywords keywords (str_lower (page_content d))) in Hm, Hin.
  unfold hit_step at 2.
  destruct (count_keywords keywords (str_lower (page_content d))) as [m mk].
  cbn [fst snd] in Hm, Hin.
  assert (Hpos : (m >? 0) = true) by (rewrite Z.gtb_ltb; apply Z.ltb_lt; lia).
  rewrite Hpos.
  eexists. split; [apply hit_loop_keeps, in_or_app; right; now left|].
  cbn [kh_file kh_matched_keywords]. now split.
Qed.

(** Nothing is missed: when [max_results] is at least the size of the
    corpus, every document in which one of the keywords occurs, case
    aside, has a hit that names that keyword. *)
Theorem keyword_occurrence_is_hit (documents : list Document)
    (keywords : list pystr) (max_results : Z) (d : Document) (kw : pystr) :
  In d documents ->
  In kw keywords ->
  contains (str_lower kw) (str_lower (page_content d)) = true ->
  Z.of_nat (length documents) <= max_results ->
  exists h, In h (search_by_keywords documents keywords max_results)
            /\ kh_file h = metadata_get_source d (py "N/A")
            /\ In kw (kh_matched_keywords h).
Proof.
  intros Hd Hkw Hc Hmax.
  destruct (hit_loop_finds keywords documents [] d kw Hd Hkw Hc)
    as (h & Hin & Hfile & Hmk).
  exists h. split; [|now split].
  unfold search_by_keywords.
  destruct (keyword_hits_ok keywords documents []) as [_ Hlen]; [constructor|].
  cbn [length] in Hlen. fold (keyword_hits documents keywords) in Hlen, Hin.
  rewrite slice_to_nonneg by lia.
  rewrite firstn_all2 by (rewrite length_sort_desc; lia).
  apply (Permutation_in h (Permutation_sym (sort_desc_perm kh_matches _))).
  exact Hin.
Qed.

End KeywordSearch.

(** A search for [LOAD] finds the loader document. *)
Lemma keyword_occurrence_is_hit_loader :
  exists h, In h (search_by_keywords (U := Latin1.db) [Scenarios.loader_doc]
                    [py "LOAD"] 5)
            /\ kh_file h = metadata_get_source Scenarios.loader_doc (py "N/A")
            /\ In (py "LOAD") (kh_matched_keywords h).
Proof.
  apply (keyword_occurrence_is_hit (U := Latin1.db)).
  - now left.
  - now left.
  - vm_compute. reflexivity.
  - cbn. lia.
Defined.

End SearchEngineToolsFacts.

(** ** More on the response extractor *)

Module ExtractionFacts.
Import PyStr Regex Reviewer SummarySpec ExtractionSpec RegexFacts PyStrFacts
  ReviewerFacts.

Section Absent.
Context {U : UnicodeDB}.

Lemma match_at_needs_literal fl h rs pos s :
  lit_prefix fl h s = None ->
  match_at fl (seqs (lit h :: rs)) pos s = None.
Proof.
  intros Hp. unfold match_at. now rewrite run_seqs_cons, run_lit, Hp.
Qed.

Lemma search_needs_literal fl h rs pos s :
  (forall pre suf, s = pre ++ suf -> lit_prefix fl h suf = None) ->
  search_from fl (seqs (lit h :: rs)) pos s = None.
Proof.
  revert pos. induction s as [|c s IH]; intros pos Hs; cbn [search_from].
  - now rewrite (match_at_needs_literal fl h rs pos []) by (now apply (Hs [])).
  - rewrite (match_at_needs_literal fl h rs pos (c :: s))
      by (now apply (Hs [])).
    apply IH. intros pre suf ->. now apply (Hs (c :: pre)).
Qed.

Lemma header_absent_no_prefix h text pre suf :
  header_absent h text -> text = pre ++ suf ->
  lit_prefix section_flags h suf = None.
Proof.
  intros Habs ->.
  destruct (lit_prefix section_flags h suf) as [rest|] eqn:Hp; [|reflexivity].
  apply (proj1 (lit_prefix_spec _ _ _ _)) in Hp as (hd & -> & Hhd).
  exfalso. now apply (Habs pre hd rest).
Qed.

Lemma search_header_absent h rs text :
  header_absent h text ->
  search section_flags (seqs (lit h :: rs)) text = None.
Proof.
  intros Habs. apply search_needs_literal.
  intros pre suf Heq. now apply (header_absent_no_prefix h text pre).
Qed.

(** A section whose header is missing yields nothing: without
    [PROBLEMAS ENCONTRADOS:] there are no issues, without
    [SUGESTÕES DE MELHORIA:] no suggestions, without [PONTOS POSITIVOS:]
    no positives, and a text without any of the three and without
    [RESUMO:] gives the empty review with the placeholder summary. *)
Theorem missing_sections_degrade (text : pystr) :
  (header_absent (py "PROBLEMAS ENCONTRADOS:") text -> _parse_issues text = [])
  /\ (header_absent (py "SUGESTÕES DE MELHORIA:") text ->
      _parse_suggestions text = [])
  /\ (header_absent (py "PONTOS POSITIVOS:") text -> _parse_positives text = [])
  /\ (header_absent (py "PROBLEMAS ENCONTRADOS:") text ->
      header_absent (py "SUGESTÕES DE MELHORIA:") text ->
      header_absent (py "PONTOS POSITIVOS:") text ->
      header_absent (py "RESUMO:") text ->
      process_response text
      = {| success := true;
           data_review :=
             Some {| issues := []; suggestions := []; positives := [];
                     summary := default_summary |};
           errors := None |}).
Proof.
  assert (Hi : header_absent (py "PROBLEMAS ENCONTRADOS:") text ->
               _parse_issues text = []).
  { intros H. unfold _parse_issues, problems_re.
    now rewrite (search_header_absent _ _ text H). }
  assert (Hs : header_absent (py "SUGESTÕES DE MELHORIA:") text ->
               _parse_suggestions text = []).
  { intros H. unfold _parse_suggestions, suggestions_re.
    now rewrite (search_header_absent _ _ text H). }
  assert (Hp : header_absent (py "PONTOS POSITIVOS:") text ->
               _parse_positives text = []).
  { intros H. unfold _parse_positives, positives_re.
    now rewrite (search_header_absent _ _ text H). }
  split; [exact Hi|]. split; [exact Hs|]. split; [exact Hp|].
  intros H1 H2 H3 H4. unfold process_response.
  rewrite (Hi H1), (Hs H2), (Hp H3). unfold _parse_summary, summary_re.
  now rewrite (search_header_absent _ _ text H4).
Qed.

End Absent.

Section Trimming.

Lemma lstrip_starts_clean s : starts_clean (lstrip s).
Proof.
  induction s as [|c s IH]; [exact I|].
  cbn [lstrip]. destruct (is_space c) eqn:Hc; [exact IH|exact Hc].
Qed.

Lemma lstrip_app_nonspace a c :
  is_space c = false -> lstrip (a ++ [c]) = lstrip a ++ [c].
Proof.
  intros Hc. induction a as [|x a IH]; cbn [app lstrip].
  - now rewrite Hc.
  - destruct (is_space x); [exact IH|reflexivity].
Qed.

(** [strip] leaves no whitespace at either end. *)
Lemma strip_trimmed s : trimmed (strip s).
Proof.
  unfold trimmed, strip, rstrip. split.
  - pose proof (lstrip_starts_clean s) as Hs.
    destruct (lstrip s) as [|c t]; [exact I|]. cbn [starts_clean] in Hs.
    cbn [rev]. rewrite (lstrip_app_nonspace _ _ Hs), rev_app_distr.
    exact Hs.
  - rewrite rev_involutive. apply lstrip_starts_clean.
Qed.

Lemma split_ws_words cur s :
  Forall (fun c => is_space c = false) cur -> Forall is_word (split_ws cur s).
Proof.
  revert cur. induction s as [|c s IH]; intros cur Hcur; cbn [split_ws].
  - destruct cur as [|a cur]; [constructor|].
    constructor; [|constructor]. split.
    + cbn. intros Heq. now apply app_eq_nil in Heq as [_ ?].
    + now apply Forall_rev.
  - destruct (is_space c) eqn:Hc.
    + destruct cur as [|a cur]; [apply IH; constructor|].
      constructor; [|apply IH; constructor]. split.
      * cbn. intros Heq. now apply app_eq_nil in Heq as [_ ?].
      * now apply Forall_rev.
    + apply IH. now constructor.
Qed.

End Trimming.

Section Extracted.
Context {U : UnicodeDB}.

Lemma positives_loop_ok (lines : list pystr) (acc : list pystr) :
  Forall (fun p => p <> [] /\ trimmed p) acc ->
  Forall (fun p => p <> [] /\ trimmed p)
    (fold_left
       (fun positives line =>
          let line := strip line in
          match line with
          | [] => positives
          | _ :: _ =>
              if starts_with_marker line
              then let positive := strip (sub no_flags marker_re (py "") line) in
                   match positive with
                   | [] => positives
                   | _ :: _ => positives ++ [positive]
                   end
              else positives
          end)
       lines acc).
Proof.
  revert acc. induction lines as [|line lines IH]; intros acc Hacc;
    cbn [fold_left]; [exact Hacc|].
  apply IH. cbv zeta.
  destruct (strip line) as [|c l]; [exact Hacc|].
  destruct (starts_with_marker (c :: l)); [|exact Hacc].
  pose proof (strip_trimmed (sub no_flags marker_re (py "") (c :: l))) as Ht.
  destruct (strip (sub no_flags marker_re (py "") (c :: l))) as [|x p];
    [exact Hacc|].
  apply Forall_app. split; [exact Hacc|].
  constructor; [|constructor]. split; [discriminate|exact Ht].
Qed.

(** What the extractor hands out is trimmed: the category and the
    description of every issue and of every suggestion have no whitespace
    at either end, and every positive point is trimmed and not empty. *)
Theorem extracted_text_trimmed (text : pystr) :
  Forall (fun i => trimmed (issue_category i) /\ trimmed (issue_description i))
         (_parse_issues text)
  /\ Forall (fun g => trimmed (sugg_category g) /\ trimmed (sugg_description g))
            (_parse_suggestions text)
  /\ Forall (fun p => p <> [] /\ trimmed p) (_parse_positives text).
Proof.
  split; [|split].
  - unfold _parse_issues.
    destruct (search section_flags problems_re text) as [mo0|]; [|constructor].
    apply parsed_records_forall; [|constructor].
    intros mo. unfold issue_of_match. cbn [issue_category issue_description].
    split; apply strip_trimmed.
  - unfold _parse_suggestions.
    destruct (search section_flags suggestions_re text) as [mo0|]; [|constructor].
    apply parsed_records_forall; [|constructor].
    intros mo. unfold suggestion_of_match. cbn [sugg_category sugg_description].
    split; apply strip_trimmed.
  - unfold _parse_positives.
    destruct (search section_flags positives_re text) as [mo0|]; [|constructor].
    apply positives_loop_ok. constructor.
Qed.

(** The summary is always a line of words: whitespace-free, non-empty
    words separated by single spaces, so it holds no newline, no tab and
    no run of spaces, whether it is the placeholder or the collapsed body
    of the section. *)
Theorem summary_is_words (text : pystr) :
  exists words,
    _parse_summary text = join (py " ") words /\ Forall is_word words.
Proof.
  unfold _parse_summary.
  destruct (search section_flags summary_re text) as [mo|].
  - exists (split (strip (group_str mo 1))). split; [reflexivity|].
    apply split_ws_words. constructor.
  - exists [py "Análise"; py "de"; py "código"; py "concluída."].
    split; [vm_compute; reflexivity|].
    repeat constructor; discriminate.
Qed.

End Extracted.

End ExtractionFacts.

(** ** More on the pipeline controller *)

Module PipelineFacts.
Import PyStr Engine StubCollaborators Capacity EngineSpec.

(** One step of a case analysis along the calls of a method: the next
    collaborator answers, or the next test is decided. *)
Ltac engine_step :=
  match goal with
  | |- context [time_time ?w] => destruct (time_time w) as [? ?]
  | |- context [loader_load ?a ?b ?w] =>
      destruct (loader_load a b w) as [[[|? ?]|?] ?]
  | |- context [add_documents ?d ?w] =>
      destruct (add_documents d w) as [[?|?] ?]
  | |- context [get_retriever ?k ?w] =>
      destruct (get_retriever k w) as [[?|?] ?]
  | |- context [retriever_invoke ?r ?q ?w] =>
      destruct (retriever_invoke r q w) as [[?|?] ?]
  | |- context [llm_ask ?q ?c ?w] =>
      destruct (llm_ask q c w) as [[?|?] ?]
  | |- context [delete_collection ?w] =>
      destruct (delete_collection w) as [[?|?] ?]
  | |- context [match ?x with Some _ => _ | None => _ end] => destruct x eqn:?
  | |- context [if ?b then _ else _] => destruct b eqn:?
  end;
  cbn [fst snd self world calls retriever is_indexed retriever_config negb].

Ltac engine_cases := repeat engine_step.

Section Queries.
Context {C : Collaborators}.

Lemma ask_returns_and_keeps question include_sources retriever_kwargs
    (m : machine) :
  exists r,
    fst (ask question include_sources retriever_kwargs m) = Returned r
    /\ self (snd (ask question include_sources retriever_kwargs m)) = self m
    /\ (ans_status r = py "success" \/ ans_status r = py "error").
Proof.
  unfold ask, bind, now, get_self, try_except, external, raise, ret.
  engine_cases;
    (eexists; split; [reflexivity|]; split; [reflexivity|];
     cbn [ans_status]; auto).
Qed.

(** [ask] never raises and never touches the engine: whatever the
    collaborators do, it returns a result whose status is [success] or
    [error], and [retriever], [is_indexed] and the configuration are what
    they were. *)
Theorem ask_always_returns (question : pystr) (include_sources : bool)
    (retriever_kwargs : option (gmap string pyval)) (m : machine) :
  exists r,
    fst (ask question include_sources retriever_kwargs m) = Returned r
    /\ self (snd (ask question include_sources retriever_kwargs m)) = self m
    /\ (ans_status r = py "success" \/ ans_status r = py "error").
Proof. apply ask_returns_and_keeps. Qed.

(** On an indexed engine whose retriever and generator answer, [ask]
    asks the retriever once and the generator once, with the question and
    the context built from the retrieved documents, and returns status
    [success] with the generator's answer, that context, the number of
    retrieved documents, the model name and one source per document (none
    when sources are not requested). *)
Theorem ask_answers_from_context (question : pystr) (include_sources : bool)
    (m : machine) (r : Retriever) (docs : list Document) (w2 : World)
    (a : pystr) (w3 : World) :
  is_indexed (self m) = true ->
  retriever (self m) = Some r ->
  retriever_invoke r question (snd (time_time (world m))) = (Returned docs, w2) ->
  llm_ask question (full_context_of docs) w2 = (Returned a, w3) ->
  exists res,
    fst (ask question include_sources None m) = Returned res
    /\ ans_status res = py "success"
    /\ answer res = a
    /\ ans_question res = question
    /\ ans_context res = full_context_of docs
    /\ retrieved_docs_count res = Some (Z.of_nat (length docs))
    /\ llm_model res = Some llm_model_name
    /\ length (ans_sources res) = (if include_sources then length docs else 0%nat)
    /\ calls (snd (ask question include_sources None m))
       = calls m ++ [CallInvoke question;
                     CallLlmAsk question (full_context_of docs)].
Proof.
  intros Hidx Hr Hinv Hllm.
  unfold ask, bind, now, get_self, try_except, external, raise, ret.
  destruct (time_time (world m)) as [t0 w1]. cbn [snd] in Hinv.
  cbn [fst snd self world calls]. rewrite Hidx, Hr. cbn [negb].
  cbn [fst snd self world calls]. rewrite Hinv.
  cbn [fst snd self world calls].
  fold (full_context_of docs). rewrite Hllm.
  cbn [fst snd self world calls].
  destruct (time_time w3) as [t1 w4].
  eexists. split; [reflexivity|].
  cbn [fst snd self world calls ans_status answer ans_question ans_context
       retrieved_docs_count llm_model ans_sources].
  repeat (split; [reflexivity|]). split.
  - destruct include_sources; [|reflexivity].
    now rewrite length_map, SearchEngineToolsFacts.length_enumerate.
  - now rewrite <- app_assoc.
Qed.

(** When the generator raises, [ask] on an indexed engine returns status
    [error] with the message of the exception in the answer and under
    ['error'], an empty context and no sources; nothing is raised to the
    caller and the engine is unchanged. This holds on both routes to the
    documents: through the retriever of the engine (no [retriever_kwargs],
    or empty ones), and through a temporary retriever that the vector
    store builds from non-empty [retriever_kwargs]. *)
Theorem ask_reports_generator_failure (question : pystr)
    (include_sources : bool) (retriever_kwargs : option (gmap string pyval))
    (m : machine) (r : Retriever) (docs : list Document) (w2 : World)
    (e : exn) (w3 : World) :
  is_indexed (self m) = true ->
  ((retriever_kwargs = None \/ retriever_kwargs = Some ∅)
   /\ retriever (self m) = Some r
   /\ retriever_invoke r question (snd (time_time (world m)))
      = (Returned docs, w2))
  \/ (exists kw w1,
        retriever_kwargs = Some kw /\ kw <> ∅
        /\ get_retriever kw (snd (time_time (world m))) = (Returned r, w1)
        /\ retriever_invoke r question w1 = (Returned docs, w2)) ->
  llm_ask question (full_context_of docs) w2 = (Raised e, w3) ->
  exists res,
    fst (ask question include_sources retriever_kwargs m) = Returned res
    /\ ans_status res = py "error"
    /\ answer res
       = py "Erro interno: " ++ py "Erro ao processar pergunta: " ++ str_of_exn e
    /\ ans_error res = Some (py "Erro ao processar pergunta: " ++ str_of_exn e)
    /\ ans_context res = py ""
    /\ ans_sources res = []
    /\ self (snd (ask question include_sources retriever_kwargs m)) = self m.
Proof.
  intros Hidx Hroute Hllm.
  unfold ask, bind, now, get_self, try_except, external, raise, ret.
  destruct (time_time (world m)) as [t0 w1]. cbn [snd] in Hroute.
  cbn [fst snd self world calls]. rewrite Hidx. cbn [negb].
  destruct Hroute as [(Hkw & Hr & Hinv)|(kw & w1' & -> & Hne & Hget & Hinv)].
  - assert (Hstep :
              match retriever_kwargs with
              | Some kw =>
                  if decide (kw = ∅)
                  then match retriever (self m) with
                       | Some r0 =>
                           external (CallInvoke question)
                                    (retriever_invoke r0 question)
                       | None =>
                           raise (Exception
                                    (py "'NoneType' object has no attribute 'invoke'"))
                       end
                  else
                    bind (external (CallGetRetriever kw) (get_retriever kw))
                         (fun temp_retriever =>
                            external (CallInvoke question)
                                     (retriever_invoke temp_retriever question))
              | None =>
                  match retriever (self m) with
                  | Some r0 =>
                      external (CallInvoke question)
                               (retriever_invoke r0 question)
                  | None =>
                      raise (Exception
                               (py "'NoneType' object has no attribute 'invoke'"))
                  end
              end
              = external (CallInvoke question) (retriever_invoke r question)).
    { destruct Hkw as [->| ->]; [now rewrite Hr|].
      destruct (decide (∅ = ∅)) as [_|Hn]; [now rewrite Hr|congruence]. }
    unfold bind, external, raise in Hstep. rewrite Hstep.
    cbn [fst snd self world calls]. rewrite Hinv.
    cbn [fst snd self world calls].
    fold (full_context_of docs). rewrite Hllm.
    cbn [fst snd self world calls].
    destruct (time_time w3) as [t1 w4].
    eexists. split; [reflexivity|].
    cbn [fst snd self world calls ans_status answer ans_error ans_context
         ans_sources].
    repeat (split; [reflexivity|]). reflexivity.
  - destruct (decide (kw = ∅)) as [Heq|_]; [congruence|].
    cbn [fst snd self world calls]. rewrite Hget.
    cbn [fst snd self world calls]. rewrite Hinv.
    cbn [fst snd self world calls].
    fold (full_context_of docs). rewrite Hllm.
    cbn [fst snd self world calls].
    destruct (time_time w3) as [t1 w4].
    eexists. split; [reflexivity|].
    cbn [fst snd self world calls ans_status answer ans_error ans_context
         ans_sources].
    repeat (split; [reflexivity|]). reflexivity.
Qed.

End Queries.

(** The stand-in generator answers the stand-in retriever's document. *)
Lemma ask_answers_from_context_stub :
  exists res,
    fst (ask (C := stub) (py "How does the loader work?") true None stub_indexed)
    = Returned res
    /\ ans_status res = py "success"
    /\ answer res = py "ok"
    /\ ans_question res = py "How does the loader work?"
    /\ ans_context res = full_context_of [Scenarios.loader_doc]
    /\ retrieved_docs_count res = Some 1
    /\ llm_model res = Some (py "stub")
    /\ length (ans_sources res) = 1%nat
    /\ calls (snd (ask (C := stub) (py "How does the loader work?") true None
                     stub_indexed))
       = [CallInvoke (py "How does the loader work?");
          CallLlmAsk (py "How does the loader work?")
                     (full_context_of [Scenarios.loader_doc])].
Proof.
  exact (ask_answers_from_context (C := stub) (py "How does the loader work?")
           true stub_indexed default_retriever_config [Scenarios.loader_doc]
           1%nat (py "ok") 1%nat eq_refl eq_refl eq_refl eq_refl).
Defined.

(** The failing generator's [timeout] ends up in the error result, here
    on the route through [retriever_kwargs={"k": 3}]. *)
Lemma ask_reports_generator_failure_stub :
  exists res,
    fst (ask (C := failing_stub) (py "How does the loader work?") true
           (Some {[ "k"%string := PInt 3 ]}) failing_indexed)
    = Returned res
    /\ ans_status res = py "error"
    /\ answer res
       = py "Erro interno: " ++ py "Erro ao processar pergunta: "
         ++ str_of_exn (Exception (py "timeout"))
    /\ ans_error res
       = Some (py "Erro ao processar pergunta: "
               ++ str_of_exn (Exception (py "timeout")))
    /\ ans_context res = py ""
    /\ ans_sources res = []
    /\ self (snd (ask (C := failing_stub) (py "How does the loader work?") true
                    (Some {[ "k"%string := PInt 3 ]}) failing_indexed))
       = self failing_indexed.
Proof.
  refine (ask_reports_generator_failure (C := failing_stub)
            (py "How does the loader work?") true
            (Some {[ "k"%string := PInt 3 ]}) failing_indexed
            ({[ "k"%string := PInt 3 ]} : gmap string pyval)
            [Scenarios.loader_doc] 1%nat
            (Exception (py "timeout")) 1%nat eq_refl _ eq_refl).
  right. exists {[ "k"%string := PInt 3 ]}, 1%nat.
  split; [reflexivity|]. split; [|split; [vm_compute; reflexivity|reflexivity]].
  intros Hempty.
  apply (f_equal (fun c : gmap string pyval => c !! "k"%string)) in Hempty.
  rewrite lookup_singleton_eq, lookup_empty in Hempty. discriminate.
Defined.

Section Lifecycle.
Context {C : Collaborators}.

(** [setup_pipeline] never raises and never changes the configuration. It
    returns either status [success], after which the engine is indexed and
    has a retriever and at least one document was loaded, or status
    [error] with an error message and zero counts, after which
    [is_indexed] is what it was. *)
Theorem setup_pipeline_always_returns (path glob : pystr) (m : machine) :
  exists stats,
    fst (setup_pipeline path glob m) = Returned stats
    /\ retriever_config (self (snd (setup_pipeline path glob m)))
       = retriever_config (self m)
    /\ ((stats_status stats = py "success"
         /\ is_indexed (self (snd (setup_pipeline path glob m))) = true
         /\ retriever (self (snd (setup_pipeline path glob m))) <> None
         /\ 0 < documents_loaded stats)
        \/ (stats_status stats = py "error"
            /\ is_indexed (self (snd (setup_pipeline path glob m)))
               = is_indexed (self m)
            /\ documents_loaded stats = 0
            /\ documents_indexed stats = 0
            /\ stats_error stats <> None)).
Proof.
  unfold setup_pipeline, bind, now, get_self, try_except, external, raise,
    ret, set_retriever, set_is_indexed, set_self.
  engine_cases;
    (eexists; split; [reflexivity|]; split; [reflexivity|];
     cbn [stats_status documents_loaded documents_indexed stats_error];
     first [ right;
             split; [reflexivity|]; split; [reflexivity|];
             split; [reflexivity|]; split; [reflexivity|discriminate]
           | left;
             split; [reflexivity|]; split; [reflexivity|];
             split; [discriminate|cbn [length]; lia] ]).
Qed.

Lemma clear_index_cases (m : machine) :
  fst (clear_index m) = Returned tt
  /\ (self (snd (clear_index m)) = cleared (self m)
      \/ self (snd (clear_index m)) = self m).
Proof.
  unfold clear_index, bind, try_except, external, ret, set_retriever,
    set_is_indexed, set_self, cleared.
  destruct has_delete_collection;
    [destruct (delete_collection (world m)) as [[[]|e] w]|];
    cbn [fst snd self world calls retriever is_indexed retriever_config];
    auto.
Qed.

(** [clear_index] never raises and never changes the configuration.
    When the vector store has no [delete_collection], or has one that
    returns, the engine is cleared afterwards: no retriever, not indexed.
    When [delete_collection] raises, the engine is exactly as it was.
    [delete_collection] is called once when it exists and is the only
    collaborator called. On an engine that is already cleared nothing
    changes, whatever [delete_collection] does. *)
Theorem clear_index_always_returns (m : machine) :
  fst (clear_index m) = Returned tt
  /\ retriever_config (self (snd (clear_index m))) = retriever_config (self m)
  /\ self (snd (clear_index m))
     = (if has_delete_collection
        then match fst (delete_collection (world m)) with
             | Returned _ => cleared (self m)
             | Raised _ => self m
             end
        else cleared (self m))
  /\ calls (snd (clear_index m))
     = (if has_delete_collection
        then calls m ++ [CallDeleteCollection]
        else calls m)
  /\ (self m = cleared (self m) -> self (snd (clear_index m)) = self m).
Proof.
  unfold clear_index, bind, try_except, external, ret, set_retriever,
    set_is_indexed, set_self, cleared.
  destruct has_delete_collection;
    [destruct (delete_collection (world m)) as [[[]|e] w]|];
    cbn [fst snd self world calls retriever is_indexed retriever_config];
    (split; [reflexivity|]; split; [reflexivity|]; split; [reflexivity|];
     split; [reflexivity|]; intros Hc; first [now symmetry|reflexivity]).
Qed.

Lemma update_retriever_config_config kwargs (m : machine) :
  retriever_config (self (snd (update_retriever_config kwargs m)))
  = kwargs ∪ retriever_config (self m).
Proof.
  unfold update_retriever_config, bind, get_self, set_retriever_config,
    set_retriever, set_self, external, ret.
  cbn [self world calls is_indexed retriever_config retriever].
  destruct (is_indexed (self m)); [|reflexivity].
  cbn [self world calls is_indexed retriever_config retriever].
  destruct (get_retriever _ _) as [[r|e] w]; reflexivity.
Qed.

(** Updates of the configuration compose: two calls leave the
    configuration that one call with both sets of settings leaves, the
    later settings winning; a call without settings leaves it as it is. *)
Theorem update_retriever_config_composes
    (kwargs1 kwargs2 : gmap string pyval) (m : machine) :
  retriever_config
    (self (snd (update_retriever_config kwargs2
                  (snd (update_retriever_config kwargs1 m)))))
  = retriever_config
      (self (snd (update_retriever_config (kwargs2 ∪ kwargs1) m)))
  /\ retriever_config (self (snd (update_retriever_config ∅ m)))
     = retriever_config (self m).
Proof.
  rewrite !update_retriever_config_config. split.
  - now rewrite (assoc_L (∪)).
  - now rewrite (left_id_L ∅ (∪)).
Qed.

(** The engine never gets indexed without a retriever: a fresh engine is
    not indexed, and [setup_pipeline], [ask], [update_retriever_config]
    and [clear_index] all keep "indexed implies a retriever". *)
Theorem indexed_engine_has_retriever :
  (forall cfg, has_retriever_when_indexed (__init__ cfg))
  /\ forall m : machine,
       has_retriever_when_indexed (self m) ->
       (forall path glob,
          has_retriever_when_indexed (self (snd (setup_pipeline path glob m))))
       /\ (forall question include_sources retriever_kwargs,
             has_retriever_when_indexed
               (self (snd (ask question include_sources retriever_kwargs m))))
       /\ (forall kwargs,
             has_retriever_when_indexed
               (self (snd (update_retriever_config kwargs m))))
       /\ has_retriever_when_indexed (self (snd (clear_index m))).
Proof.
  split; [intros cfg; discriminate|].
  intros m Hm. unfold has_retriever_when_indexed in *.
  split; [|split; [|split]].
  - intros path glob.
    unfold setup_pipeline, bind, now, get_self, try_except, external, raise,
      ret, set_retriever, set_is_indexed, set_self.
    engine_cases; first [exact Hm | discriminate].
  - intros question include_sources retriever_kwargs.
    destruct (ask_returns_and_keeps question include_sources retriever_kwargs m)
      as (r & _ & -> & _).
    exact Hm.
  - intros kwargs.
    unfold update_retriever_config, bind, get_self, set_retriever_config,
      set_retriever, set_self, external, ret.
    cbn [self world calls is_indexed retriever_config retriever].
    destruct (is_indexed (self m)) eqn:Hidx;
      cbn [self world calls is_indexed retriever_config retriever].
    + destruct (get_retriever _ _) as [[r|e] w];
        cbn [fst snd self world calls is_indexed retriever_config retriever];
        [discriminate|exact Hm].
    + discriminate.
  - destruct (clear_index_cases m) as (_ & [H|H]); rewrite H;
      [discriminate|exact Hm].
Qed.

(** When the loader finds documents, the vector store takes them and
    builds a retriever, and the configuration names a ['search_type'],
    [setup_pipeline] returns status [success] with the numbers of
    documents loaded and indexed; the engine is then indexed with that
    retriever, and the three collaborators were called once each, in
    order. *)
Theorem setup_pipeline_indexes (path glob : pystr) (m : machine)
    (docs : list Document) (w2 : World) (ids : list pystr) (w3 : World)
    (r : Retriever) (w4 : World) (v : pyval) :
  docs <> [] ->
  loader_load path glob (snd (time_time (world m))) = (Returned docs, w2) ->
  add_documents docs w2 = (Returned ids, w3) ->
  get_retriever (retriever_config (self m)) w3 = (Returned r, w4) ->
  retriever_config (self m) !! "search_type"%string = Some v ->
  exists stats,
    fst (setup_pipeline path glob m) = Returned stats
    /\ stats_status stats = py "success"
    /\ documents_loaded stats = Z.of_nat (length docs)
    /\ documents_indexed stats = Z.of_nat (length ids)
    /\ stats_retriever_config stats = Some (retriever_config (self m))
    /\ self (snd (setup_pipeline path glob m))
       = {| retriever := Some r;
            is_indexed := true;
            retriever_config := retriever_config (self m) |}
    /\ calls (snd (setup_pipeline path glob m))
       = calls m ++ [CallLoad path glob; CallAddDocuments docs;
                     CallGetRetriever (retriever_config (self m))].
Proof.
  intros Hdocs Hload Hadd Hget Hkey.
  unfold setup_pipeline, bind, now, get_self, try_except, external, raise,
    ret, set_retriever, set_is_indexed, set_self.
  destruct (time_time (world m)) as [t0 w1]. cbn [snd] in Hload.
  cbn [fst snd self world calls retriever is_indexed retriever_config].
  rewrite Hload. destruct docs as [|d ds]; [congruence|].
  cbn [fst snd self world calls retriever is_indexed retriever_config].
  rewrite Hadd.
  cbn [fst snd self world calls retriever is_indexed retriever_config].
  rewrite Hget.
  cbn [fst snd self world calls retriever is_indexed retriever_config].
  rewrite Hkey.
  cbn [fst snd self world calls retriever is_indexed retriever_config].
  destruct (time_time w4) as [t1 w5].
  eexists. split; [reflexivity|].
  cbn [fst snd self world calls stats_status documents_loaded
       documents_indexed stats_retriever_config].
  repeat (split; [reflexivity|]). now rewrite <- !app_assoc.
Qed.

(** A configuration without ['search_type'] makes [setup_pipeline] fail
    late: the documents have gone to the vector store and the retriever
    of the engine has been replaced when the [KeyError] is caught, so the
    result says [error] with zero counts while [is_indexed] keeps its old
    value. *)
Theorem setup_pipeline_without_search_type (path glob : pystr) (m : machine)
    (docs : list Document) (w2 : World) (ids : list pystr) (w3 : World)
    (r : Retriever) (w4 : World) :
  docs <> [] ->
  loader_load path glob (snd (time_time (world m))) = (Returned docs, w2) ->
  add_documents docs w2 = (Returned ids, w3) ->
  get_retriever (retriever_config (self m)) w3 = (Returned r, w4) ->
  retriever_config (self m) !! "search_type"%string = None ->
  exists stats,
    fst (setup_pipeline path glob m) = Returned stats
    /\ stats_status stats = py "error"
    /\ stats_error stats
       = Some (py "Erro ao configurar pipeline: " ++ py "'search_type'")
    /\ documents_loaded stats = 0
    /\ documents_indexed stats = 0
    /\ retriever (self (snd (setup_pipeline path glob m))) = Some r
    /\ is_indexed (self (snd (setup_pipeline path glob m)))
       = is_indexed (self m)
    /\ calls (snd (setup_pipeline path glob m))
       = calls m ++ [CallLoad path glob; CallAddDocuments docs;
                     CallGetRetriever (retriever_config (self m))].
Proof.
  intros Hdocs Hload Hadd Hget Hkey.
  unfold setup_pipeline, bind, now, get_self, try_except, external, raise,
    ret, set_retriever, set_is_indexed, set_self.
  destruct (time_time (world m)) as [t0 w1]. cbn [snd] in Hload.
  cbn [fst snd self world calls retriever is_indexed retriever_config].
  rewrite Hload. destruct docs as [|d ds]; [congruence|].
  cbn [fst snd self world calls retriever is_indexed retriever_config].
  rewrite Hadd.
  cbn [fst snd self world calls retriever is_indexed retriever_config].
  rewrite Hget.
  cbn [fst snd self world calls retriever is_indexed retriever_config].
  rewrite Hkey.
  cbn [fst snd self world calls retriever is_indexed retriever_config].
  destruct (time_time w4) as [t1 w5].
  eexists. split; [reflexivity|].
  cbn [fst snd self world calls stats_status documents_loaded
       documents_indexed stats_error str_of_exn retriever is_indexed].
  repeat (split; [reflexivity|]). now rewrite <- !app_assoc.
Qed.

(** On an indexed engine [update_retriever_config] asks the vector store
    once for a retriever under the merged configuration. When it gets
    one, that is the new retriever; when the vector store raises, the
    exception leaves the method, the old retriever stays and the merged
    configuration is kept all the same. *)
Theorem update_retriever_config_rebuilds (kwargs : gmap string pyval)
    (m : machine) :
  is_indexed (self m) = true ->
  calls (snd (update_retriever_config kwargs m))
  = calls m ++ [CallGetRetriever (kwargs ∪ retriever_config (self m))]
  /\ (forall r w,
        get_retriever (kwargs ∪ retriever_config (self m)) (world m)
        = (Returned r, w) ->
        fst (update_retriever_config kwargs m) = Returned tt
        /\ retriever (self (snd (update_retriever_config kwargs m))) = Some r)
  /\ (forall e w,
        get_retriever (kwargs ∪ retriever_config (self m)) (world m)
        = (Raised e, w) ->
        fst (update_retriever_config kwargs m) = Raised e
        /\ retriever (self (snd (update_retriever_config kwargs m)))
           = retriever (self m)
        /\ retriever_config (self (snd (update_retriever_config kwargs m)))
           = kwargs ∪ retriever_config (self m)).
Proof.
  intros Hidx.
  unfold update_retriever_config, bind, get_self, set_retriever_config,
    set_retriever, set_self, external, ret.
  cbn [self world calls is_indexed retriever_config retriever].
  rewrite Hidx.
  cbn [self world calls is_indexed retriever_config retriever].
  destruct (get_retriever (kwargs ∪ retriever_config (self m)) (world m))
    as [[r|e] w];
    cbn [fst snd self world calls is_indexed retriever_config retriever];
    (split; [reflexivity|]); split; intros ? ? [= ? ?]; subst; auto.
Qed.

(** [prepare_context] never raises and leaves the engine alone. In its
    result the caller's keyword arguments win over the two entries it
    adds; ['code'] holds the code, and on an engine that is not indexed
    ['project_context'] is the empty string and no collaborator is
    called. *)
Theorem prepare_context_result (code : pystr) (kwargs : gmap string pyval)
    (m : machine) :
  exists d,
    fst (prepare_context code kwargs m) = Returned d
    /\ self (snd (prepare_context code kwargs m)) = self m
    /\ (forall k v, kwargs !! k = Some v -> d !! k = Some v)
    /\ (kwargs !! "code"%string = None ->
        d !! "code"%string = Some (PStr code))
    /\ (is_indexed (self m) = false ->
        calls (snd (prepare_context code kwargs m)) = calls m
        /\ (kwargs !! "project_context"%string = None ->
            d !! "project_context"%string = Some (PStr (py "")))).
Proof.
  unfold prepare_context, project_context, bind, try_except, ret.
  destruct (ask_returns_and_keeps guidelines_question true
              (Some {[ "k"%string := PInt 3 ]}) m) as (r & Hret & Hself & _).
  pose proof (EngineFacts.ask_when_not_indexed guidelines_question true
                (Some {[ "k"%string := PInt 3 ]}) m) as Hni.
  destruct (ask guidelines_question true (Some {[ "k"%string := PInt 3 ]}) m)
    as [o m'].
  cbn [fst snd] in Hret, Hself. subst o.
  eexists. split; [reflexivity|]. cbn [fst snd].
  split; [exact Hself|]. split; [|split].
  - intros k v Hk. now apply lookup_union_Some_l.
  - intros Hk. rewrite lookup_union_r by exact Hk.
    now rewrite lookup_insert_eq.
  - intros Hidx. specialize (Hni Hidx). injection Hni as -> ->.
    split; [reflexivity|].
    intros Hk. rewrite lookup_union_r by exact Hk.
    rewrite lookup_insert_ne by discriminate.
    first [now rewrite lookup_insert_eq | now rewrite lookup_singleton_eq].
Qed.

End Lifecycle.

(** The stand-ins index the one document found under [src]. *)
Lemma setup_pipeline_indexes_stub :
  exists stats,
    fst (setup_pipeline (C := stub) (py "src") (py "**/*.py") stub_machine)
    = Returned stats
    /\ stats_status stats = py "success"
    /\ documents_loaded stats = 1
    /\ documents_indexed stats = 1
    /\ stats_retriever_config stats = Some default_retriever_config
    /\ self (snd (setup_pipeline (C := stub) (py "src") (py "**/*.py")
                    stub_machine))
       = self stub_indexed
    /\ calls (snd (setup_pipeline (C := stub) (py "src") (py "**/*.py")
                     stub_machine))
       = [CallLoad (py "src") (py "**/*.py");
          CallAddDocuments [Scenarios.loader_doc];
          CallGetRetriever default_retriever_config].
Proof.
  refine (setup_pipeline_indexes (C := stub) (py "src") (py "**/*.py")
            stub_machine [Scenarios.loader_doc] 1%nat [py "id"] 1%nat
            default_retriever_config 1%nat (PStr (py "similarity"))
            _ eq_refl eq_refl eq_refl _).
  - discriminate.
  - vm_compute. reflexivity.
Defined.

(** With [{"k": 3}] as the whole configuration the stand-ins index the
    document and the result is an error all the same. *)
Lemma setup_pipeline_without_search_type_stub :
  exists stats,
    fst (setup_pipeline (C := stub) (py "src") (py "**/*.py")
           stub_without_search_type)
    = Returned stats
    /\ stats_status stats = py "error"
    /\ stats_error stats
       = Some (py "Erro ao configurar pipeline: " ++ py "'search_type'")
    /\ documents_loaded stats = 0
    /\ documents_indexed stats = 0
    /\ retriever (self (snd (setup_pipeline (C := stub) (py "src")
                               (py "**/*.py") stub_without_search_type)))
       = Some (retriever_config (self stub_without_search_type)
               : Retriever (Collaborators := stub))
    /\ is_indexed (self (snd (setup_pipeline (C := stub) (py "src")
                                (py "**/*.py") stub_without_search_type)))
       = is_indexed (self stub_without_search_type)
    /\ calls (snd (setup_pipeline (C := stub) (py "src") (py "**/*.py")
                     stub_without_search_type))
       = calls stub_without_search_type
         ++ [CallLoad (py "src") (py "**/*.py");
             CallAddDocuments [Scenarios.loader_doc];
             CallGetRetriever (retriever_config (self stub_without_search_type))].
Proof.
  refine (setup_pipeline_without_search_type (C := stub) (py "src")
            (py "**/*.py") stub_without_search_type [Scenarios.loader_doc]
            1%nat [py "id"] 1%nat
            (retriever_config (self stub_without_search_type)) 1%nat
            _ eq_refl eq_refl _ _).
  - discriminate.
  - vm_compute. reflexivity.
  - vm_compute. reflexivity.
Defined.

(** A negative [k] makes the failing vector store raise; the engine keeps
    its retriever. *)
Lemma update_retriever_config_rebuilds_stub :
  calls (snd (update_retriever_config (C := failing_stub)
                {[ "k"%string := PInt (-1) ]} failing_indexed))
  = calls failing_indexed
    ++ [CallGetRetriever ({[ "k"%string := PInt (-1) ]}
                          ∪ retriever_config (self failing_indexed))]
  /\ fst (update_retriever_config (C := failing_stub)
            {[ "k"%string := PInt (-1) ]} failing_indexed)
     = Raised (Exception (py "k must be positive"))
  /\ retriever (self (snd (update_retriever_config (C := failing_stub)
                             {[ "k"%string := PInt (-1) ]} failing_indexed)))
     = retriever (self failing_indexed).
Proof.
  destruct (update_retriever_config_rebuilds (C := failing_stub)
              {[ "k"%string := PInt (-1) ]} failing_indexed eq_refl)
    as (Hcalls & _ & Hraise).
  split; [exact Hcalls|].
  destruct (Hraise (Exception (py "k must be positive")) 0%nat) as (H1 & H2 & _).
  - vm_compute. reflexivity.
  - split; [exact H1|exact H2].
Defined.

End PipelineFacts.
